(** * Qualys IOC relay: the observable-to-CTIM mapping of [api/observables.py]

    A shallow embedding of the module and the properties its specification
    states about it.  Events are JSON documents as [response.json()] yields
    them; Python exceptions are results of the functions that may raise them;
    [uuid4()] and the HTTP transport are oracles of the surrounding world. *)

From Stdlib Require Import PrimFloat Ascii.
From stdpp Require Import base option list strings pretty gmap.

#[local] Set Warnings "-register-all,-clear-no-such-hyp".

Open Scope Z_scope.

(** ** Python values and exceptions *)

(** What [json.loads] builds: [None], [bool], [int], [float], [str], [list]
    and [dict] with string keys (in document order, a key bound once). *)
Inductive value : Type :=
  | VNone
  | VBool (b : bool)
  | VInt (z : Z)
  | VFloat (f : float)
  | VStr (s : string)
  | VList (l : list value)
  | VDict (d : list (string * value)).

(** The exceptions the module can raise or let through. *)
Inductive exn : Type :=
  | KeyError (key : string)
  | TypeError
  | AttributeError
  | HTTPError (status : Z)
  | ConnectionError
  | JSONDecodeError.

(** The outcome of evaluating an expression: a value, or a raised exception. *)
Inductive outcome (A : Type) : Type :=
  | Ok (a : A)
  | Raise (e : exn).
Arguments Ok {A} a.
Arguments Raise {A} e.

#[global] Instance outcome_ret : MRet outcome := @Ok.
#[global] Instance outcome_bind : MBind outcome := λ A B f m,
  match m with
  | Ok a => f a
  | Raise e => Raise e
  end.
#[global] Instance outcome_fmap : FMap outcome := λ A B f m,
  match m with
  | Ok a => Ok (f a)
  | Raise e => Raise e
  end.

Definition is_Ok {A} (m : outcome A) : bool :=
  match m with
  | Ok _ => true
  | Raise _ => false
  end.

(** [bool(v)]: Python truthiness. *)
Definition truthy (v : value) : bool :=
  match v with
  | VNone => false
  | VBool b => b
  | VInt z => negb (z =? 0)
  | VFloat f => negb (PrimFloat.eqb f 0%float)
  | VStr s => negb (String.eqb s "")
  | VList l => negb (bool_decide (l = []))
  | VDict d => negb (bool_decide (d = []))
  end.

(** [a or b]. *)
Definition py_or (a b : value) : value := if truthy a then a else b.

(** Lookup in a dict's bindings. *)
Fixpoint assoc {A} (key : string) (d : list (string * A)) : option A :=
  match d with
  | [] => None
  | (k, v) :: d' => if String.eqb k key then Some v else assoc key d'
  end.

(** [needle in haystack] on two [str]: the substring test. *)
Fixpoint is_substring (needle haystack : string) : bool :=
  String.prefix needle haystack ||
  match haystack with
  | EmptyString => false
  | String _ rest => is_substring needle rest
  end.

(** [VStr s == x] for an element [x] of a list. *)
Definition str_eq_value (s : string) (x : value) : bool :=
  match x with
  | VStr t => String.eqb s t
  | _ => false
  end.

(** [part in container], for a [str] on the left. *)
Definition contains (container : value) (part : string) : outcome bool :=
  match container with
  | VDict d => Ok (bool_decide (is_Some (assoc part d)))
  | VList l => Ok (existsb (str_eq_value part) l)
  | VStr s => Ok (is_substring part s)
  | VNone | VBool _ | VInt _ | VFloat _ => Raise TypeError
  end.

(** [container[key]], for a [str] key. *)
Definition getitem (container : value) (key : string) : outcome value :=
  match container with
  | VDict d =>
      match assoc key d with
      | Some v => Ok v
      | None => Raise (KeyError key)
      end
  | _ => Raise TypeError
  end.

(** [obj.get(key, default)]: only a [dict] has the method. *)
Definition dict_get (obj : value) (key : string) (default : value) : outcome value :=
  match obj with
  | VDict d =>
      match assoc key d with
      | Some v => Ok v
      | None => Ok default
      end
  | _ => Raise AttributeError
  end.

(** One-character strings of a [str], as iterating it yields them. *)
Fixpoint chars (s : string) : list string :=
  match s with
  | EmptyString => []
  | String c rest => String c EmptyString :: chars rest
  end.

(** [for x in v]: the items a [for] loop or a comprehension visits. *)
Definition iterate (v : value) : outcome (list value) :=
  match v with
  | VList l => Ok l
  | VDict d => Ok (VStr <$> d.*1)
  | VStr s => Ok (VStr <$> chars s)
  | VNone | VBool _ | VInt _ | VFloat _ => Raise TypeError
  end.

(** [s.split(sep)] for a one-character separator: never empty. *)
Fixpoint split (sep : Ascii.ascii) (s : string) : list string :=
  match s with
  | EmptyString => [EmptyString]
  | String c rest =>
      if Ascii.eqb c sep then EmptyString :: split sep rest
      else match split sep rest with
           | [] => [String c EmptyString]
           | word :: words => String c word :: words
           end
  end.

(** ** The path accessor *)

(** The loop of [get] over the remaining parts of the path. *)
Fixpoint get_parts (result : value) (parts : list string) (default : value)
  : outcome value :=
  match parts with
  | [] => Ok result
  | part :: parts' =>
      present ← contains result part;
      if present : bool then
        result' ← getitem result part;
        get_parts result' parts' default
      else Ok default
  end.

(** [get(event, path, default=None)]: the first entry of the split path is
    dropped ([next(parts)]), the others are looked up in turn. *)
Definition get (event : value) (path : string) (default : value) : outcome value :=
  get_parts event (tail (split "."%char path)) default.

(** ** CTIM documents

    The dictionaries the module builds have fixed keys: each is a record
    whose fields carry the keys' names. *)

(** [{'type': ..., 'value': ...}]: an observable. *)
Module Typed.
Record t : Type := Make { type : string; value : value }.
End Typed.

(** An entry of a sighting's ['relations']. *)
Module Relation.
Record t : Type := Make {
  origin : string;
  related : Typed.t;
  relation : string;
  source : Typed.t }.
End Relation.

(** The entry of a sighting's ['targets']; [start_time] is the field of its
    ['observed_time']. *)
Module Target.
Record t : Type := Make {
  observables : list Typed.t;
  start_time : value;
  type : string;
  os : value }.
End Target.

(** A column of a sighting's ['data'] table, and the table. *)
Module Column.
Record t : Type := Make { name : string; type : string }.
End Column.

Module Data.
Record t : Type := Make {
  columns : list Column.t;
  rows : list (list string);
  row_count : Z }.
End Data.

Module Sighting.
Record t : Type := Make {
  id : string;
  confidence : string;
  count : Z;
  external_ids : list value;
  external_references : list value;
  observables : list Typed.t;
  start_time : value;
  relations : list Relation.t;
  schema_version : string;
  severity : string;
  sensor : string;
  source : string;
  targets : list Target.t;
  type : string;
  description : string;
  data : Data.t }.
End Sighting.

Module Judgement.
Record t : Type := Make {
  id : string;
  confidence : string;
  disposition : Z;
  disposition_name : string;
  external_ids : list value;
  external_references : list value;
  observable : Typed.t;
  priority : Z;
  reason : value;
  schema_version : string;
  severity : string;
  source : string;
  type : string;
  valid_time : list (string * value) }.
End Judgement.

Module Indicator.
Record t : Type := Make {
  id : string;
  type : string;
  schema_version : string;
  source : string;
  producer : string;
  severity : string;
  valid_time : list (string * value);
  external_ids : list value;
  confidence : string }.
End Indicator.

Module Relationship.
Record t : Type := Make {
  id : string;
  type : string;
  schema_version : string;
  source : string;
  source_uri : string;
  source_ref : string;
  target_ref : string;
  relationship_type : string;
  external_ids : list value }.
End Relationship.

(** A document of any of the four kinds: what the lists of the result hold
    and what [relationship] links. *)
Inductive entity : Type :=
  | ESighting (s : Sighting.t)
  | EJudgement (j : Judgement.t)
  | EIndicator (i : Indicator.t)
  | ERelationship (r : Relationship.t).

(** [doc['id']]. *)
Definition entity_id (doc : entity) : string :=
  match doc with
  | ESighting s => Sighting.id s
  | EJudgement j => Judgement.id j
  | EIndicator i => Indicator.id i
  | ERelationship r => Relationship.id r
  end.

(** [doc['schema_version']] and [doc['source']]. *)
Definition entity_schema_version (doc : entity) : string :=
  match doc with
  | ESighting s => Sighting.schema_version s
  | EJudgement j => Judgement.schema_version j
  | EIndicator i => Indicator.schema_version i
  | ERelationship r => Relationship.schema_version r
  end.

Definition entity_source (doc : entity) : string :=
  match doc with
  | ESighting s => Sighting.source s
  | EJudgement j => Judgement.source j
  | EIndicator i => Indicator.source i
  | ERelationship r => Relationship.source r
  end.

(** ** The relation inferencer *)

(** A rule: [(source_type, source_path), relation, (target_type, target_path)]. *)
Definition rule : Type := (string * string) * string * (string * string).

(** The list literal [relations] passes to [mapped]. *)
Definition rules : list rule := [
  (("file_name", ".file.fileName"), "File_Name_Of", ("sha256", ".file.sha256"));
  (("file_name", ".file.fileName"), "File_Name_Of", ("md5", ".file.md5"));
  (("file_path", ".file.fullPath"), "File_Path_Of", ("sha256", ".file.sha256"));
  (("file_path", ".file.fullPath"), "File_Path_Of", ("md5", ".file.md5"));
  (("file_name", ".process.processName"), "Connected_To", ("ip", ".network.remoteIP"));
  (("file_name", ".process.processName"), "Connected_To", ("domain", ".network.remoteDns"));
  (("ip", ".network.remoteIP"), "Resolved_To", ("domain", ".network.remoteDns"))
]%string.

(** The generator [mapped], run to its end (as [list(relations(event))]
    does): both paths of a rule are looked up, then the relation is yielded
    when both values are truthy. *)
Fixpoint mapped (event : value) (relations_ : list rule) : outcome (list Relation.t) :=
  match relations_ with
  | [] => Ok []
  | (source, relation, target) :: relations' =>
      let '(source_type, source_path) := source in
      let '(target_type, target_path) := target in
      source_value ← get event source_path VNone;
      target_value ← get event target_path VNone;
      rest ← mapped event relations';
      if truthy source_value && truthy target_value then
        Ok ({| Relation.origin := "Qualys IOC";
               Relation.related := Typed.Make target_type target_value;
               Relation.relation := relation;
               Relation.source := Typed.Make source_type source_value |} :: rest)
      else Ok rest
  end.

Definition relations (event : value) : outcome (list Relation.t) :=
  mapped event rules.

(** ** The target extractor *)

(** The body of the loop over the interfaces. *)
Definition interface_targets (interface : value) : outcome (list Typed.t) :=
  ip ← dict_get interface "ipAddress" VNone;
  ips ← (if truthy ip then
           address ← getitem interface "ipAddress";
           Ok [Typed.Make "ip" address]
         else Ok []);
  mac ← dict_get interface "macAddress" VNone;
  macs ← (if truthy mac then
            address ← getitem interface "macAddress";
            Ok [Typed.Make "mac_address" address]
          else Ok []);
  Ok (ips ++ macs).

(** The generator [targets], run to its end. *)
Definition targets (event : value) : outcome (list Typed.t) :=
  asset ← getitem event "asset";
  name ← dict_get asset "netBiosName" VNone;
  hostname ← (if truthy name then
                asset ← getitem event "asset";
                name ← getitem asset "netBiosName";
                Ok [Typed.Make "hostname" name]
              else Ok []);
  asset ← getitem event "asset";
  interfaces ← dict_get asset "interfaces" VNone;
  interfaces ← iterate (py_or interfaces (VList []));
  found ← mapM interface_targets interfaces;
  Ok (hostname ++ concat found).

(** ** The world: identifiers and the transport *)

(** A call [requests.get(url, headers=...)].

    Modelled from the spec: [headers] comes from the module [.token], which
    is not among the sources; it "supplies a bearer token header set,
    refreshing on demand".  A request records the URL and whether the headers
    were asked for with [fresh=True]. *)
Record request : Type := Request { url : string; fresh : bool }.

(** What the module reads of a [requests.Response]: the status code and the
    outcome of [response.json()]. *)
Record response : Type := Response { status_code : Z; json : outcome value }.

(** The state the module's effects act on: how many identifiers [uuid4()]
    has handed out, and the requests sent so far, oldest first. *)
Record world : Type := World { drawn : nat; sent : list request }.

(** A computation that may draw identifiers, send requests and raise. *)
Definition M (A : Type) : Type := world → outcome A * world.

#[global] Instance M_ret : MRet M := λ A a w, (Ok a, w).
#[global] Instance M_bind : MBind M := λ A B f m w,
  match m w with
  | (Ok a, w') => f a w'
  | (Raise e, w') => (Raise e, w')
  end.

(** A computation without effects on the world. *)
Definition lift {A} (m : outcome A) : M A := λ w, (m, w).

(** A loop that threads an accumulator through the items. *)
Fixpoint for_each {A B} (f : B → A → M B) (acc : B) (items : list A) : M B :=
  match items with
  | [] => mret acc
  | item :: items' => acc' ← f acc item; for_each f acc' items'
  end.

(** [response.raise_for_status()] of [requests]: an [HTTPError] for a client
    (4xx) or server (5xx) status, nothing otherwise. *)
Definition raise_for_status (r : response) : outcome unit :=
  if (400 <=? status_code r) && (status_code r <? 600)
  then Raise (HTTPError (status_code r))
  else Ok ().

(** [str(active)]. *)
Definition str_bool (b : bool) : string := if b then "True" else "False".

(** ** [urllib.parse.quote] *)

(** [quote(string)] of the standard library, with its default [safe='/']:
    the bytes of the UTF-8 encoding (here, the characters of the string) that
    are letters, digits or one of [_.-~/] are kept, every other one becomes
    [%XX] with two upper-case hexadecimal digits. *)
Module urllib.

Definition always_safe (c : Ascii.ascii) : bool :=
  let n := Ascii.N_of_ascii c in
  ((65 <=? n) && (n <=? 90) || (97 <=? n) && (n <=? 122) ||
   (48 <=? n) && (n <=? 57))%N ||
  Ascii.eqb c "_" || Ascii.eqb c "." || Ascii.eqb c "-" || Ascii.eqb c "~".

Definition safe (c : Ascii.ascii) : bool := always_safe c || Ascii.eqb c "/".

(** The digit of [{:02X}] for a value below 16. *)
Definition hex_digit (n : N) : Ascii.ascii :=
  if (n <? 10)%N then Ascii.ascii_of_N (48 + n) else Ascii.ascii_of_N (55 + n).

Definition quote_char (c : Ascii.ascii) : string :=
  if safe c then String c EmptyString
  else String "%" (String (hex_digit (Ascii.N_of_ascii c / 16))
                  (String (hex_digit (Ascii.N_of_ascii c mod 16)) EmptyString)).

Fixpoint quote (s : string) : string :=
  match s with
  | EmptyString => EmptyString
  | String c rest => quote_char c +:+ quote rest
  end.

End urllib.

(** ** Observables *)

(** The subclasses of [Observable]. *)
Inductive kind : Type := MD5 | SHA256 | FileName | FilePath | IP | Domain | Mutex.

#[global] Instance kind_eq_dec : EqDecision kind.
Proof. solve_decision. Defined.

(** The dictionary [map] returns. *)
Module Mapped.
Record t : Type := Make {
  sightings : list Sighting.t;
  judgements : list Judgement.t;
  indicators : list Indicator.t;
  relationships : list Relationship.t }.

(** [.items()], in the order of the literal's keys. *)
Definition items (m : t) : list (string * list entity) := [
  ("sightings", ESighting <$> sightings m);
  ("judgements", EJudgement <$> judgements m);
  ("indicators", EIndicator <$> indicators m);
  ("relationships", ERelationship <$> relationships m)
]%string.
End Mapped.

Module Observable.

(** [Observable.__subclasses__()]: the classes in the order of their
    definition. *)
Definition subclasses : list kind := [MD5; SHA256; FileName; FilePath; IP; Domain; Mutex].

Definition type (cls : kind) : string :=
  match cls with
  | MD5 => "md5"
  | SHA256 => "sha256"
  | FileName => "file_name"
  | FilePath => "file_path"
  | IP => "ip"
  | Domain => "domain"
  | Mutex => "mutex"
  end.

Definition name (cls : kind) : string :=
  match cls with
  | MD5 => "MD5"
  | SHA256 => "SHA256"
  | FileName => "file name"
  | FilePath => "file path"
  | IP => "IP"
  | Domain => "domain"
  | Mutex => "mutex"
  end.

(** The double quote of the f-strings. *)
Definition quote : string := String "034"%char EmptyString.

Definition filter (self : kind) (observable : string) : string :=
  match self with
  | MD5 => "file.hash.md5: " +:+ quote +:+ observable +:+ quote
  | SHA256 => "file.hash.sha256: " +:+ quote +:+ observable +:+ quote
  | FileName => "file.name: " +:+ quote +:+ observable +:+ quote
  | FilePath => "file.fullPath: " +:+ quote +:+ observable +:+ quote
  | IP => "network.local.address.ip: " +:+ quote +:+ observable +:+ quote +:+ " or " +:+
          "network.remote.address.ip: " +:+ quote +:+ observable +:+ quote
  | Domain => "network.remote.address.fqdn: " +:+ quote +:+ observable +:+ quote
  | Mutex => "handle.name: " +:+ quote +:+ observable +:+ quote
  end.

(** [Observable.of(type_)]: the first subclass of that type, or [None]. *)
Definition of_ (type_ : string) : option kind :=
  find (λ cls, String.eqb (type cls) type_) subclasses.

(** [refer]: the URL that leads back to the search in Qualys. *)
Definition refer (self : kind) (api observable : string) : string :=
  api +:+ "/ioc/#/hunting?search=" +:+ urllib.quote (filter self observable).

Section World.

(** [str(uuid4())] of the [n]-th call, counted from 0, and the response (or
    the failure) of the transport to the [n]-th request. *)
Variable uuid4_str : nat → string.
Variable transport : nat → request → outcome response.

Definition uuid4 : M string :=
  λ w, (Ok (uuid4_str (drawn w)), World (S (drawn w)) (sent w)).

Definition requests_get (url : string) (fresh : bool) : M response :=
  λ w, (transport (length (sent w)) (Request url fresh),
        World (drawn w) (sent w ++ [Request url fresh])).

Section Map.

Variables (self : kind) (observable : string) (event : value) (active : bool).

Definition confidence : string := "High".
Definition severity : string := "Medium".
Definition schema : string := "1.0.16".

Definition sighting : M Sighting.t :=
  uuid ← uuid4;
  external_id ← lift (get event ".id" VNone);
  start_time ← lift (get event ".dateTime" VNone);
  relations_ ← lift (relations event);
  targets_ ← lift (targets event);
  target_time ← lift (get event ".dateTime" VNone);
  os ← lift (get event ".asset.fullOSName" VNone);
  mret {|
    Sighting.id := "transient:" +:+ uuid;
    Sighting.confidence := confidence;
    Sighting.count := 1;
    Sighting.external_ids := [external_id];
    Sighting.external_references := [];
    Sighting.observables := [Typed.Make (type self) (VStr observable)];
    Sighting.start_time := start_time;
    Sighting.relations := relations_;
    Sighting.schema_version := schema;
    Sighting.severity := severity;
    Sighting.sensor := "endpoint";
    Sighting.source := "Qualys IOC";
    Sighting.targets := [
      {| Target.observables := targets_;
         Target.start_time := target_time;
         Target.type := "endpoint";
         Target.os := os |} ];
    Sighting.type := "sighting";
    Sighting.description :=
      "A Qualys IOC event related to " +:+ quote +:+ observable +:+ quote;
    Sighting.data :=
      {| Data.columns := [Column.Make "Active" "string"];
         Data.rows := [[str_bool active]];
         Data.row_count := 1 |}
  |}.

(** [table.get(verdict)] on a dict literal with [str] keys: a [list] or a
    [dict] cannot be hashed. *)
Definition table_get {A} (table : list (string * A)) (verdict : value)
  : outcome (option A) :=
  match verdict with
  | VStr s => Ok (assoc s table)
  | VList _ | VDict _ => Raise TypeError
  | VNone | VBool _ | VInt _ | VFloat _ => Ok None
  end.

Definition judgement (indicator2 : value) : M Judgement.t :=
  verdict ← lift (dict_get indicator2 "verdict" VNone);
  disposition ← lift (
    found ← table_get [("KNOWN", 1); ("UNKNOWN", 5); ("MALICIOUS", 2);
                       ("REMEDIATED", 2)]%string verdict;
    Ok (match found with
        | Some code => if code =? 0 then 5 else code
        | None => 5
        end));
  disposition_name ← lift (
    found ← table_get [("KNOWN", "Clean"); ("UNKNOWN", "Unknown");
                       ("MALICIOUS", "Malicious");
                       ("REMEDIATED", "Malicious")]%string verdict;
    Ok (match found with
        | Some name => if String.eqb name "" then "Unknown" else name
        | None => "Unknown"
        end)%string);
  uuid ← uuid4;
  external_id ← lift (get event ".id" VNone);
  reason ← lift (dict_get indicator2 "threatName" (VStr ""));
  mret {|
    Judgement.id := "transient:" +:+ uuid;
    Judgement.confidence := confidence;
    Judgement.disposition := disposition;
    Judgement.disposition_name := disposition_name;
    Judgement.external_ids := [external_id];
    Judgement.external_references := [];
    Judgement.observable := Typed.Make (type self) (VStr observable);
    Judgement.priority := 90;
    Judgement.reason := reason;
    Judgement.schema_version := schema;
    Judgement.severity := severity;
    Judgement.source := "Qualys IOC";
    Judgement.type := "judgement";
    Judgement.valid_time := []
  |}.

Definition indicator : M Indicator.t :=
  uuid ← uuid4;
  external_id ← lift (get event ".id" VNone);
  mret {|
    Indicator.id := "transient:" +:+ uuid;
    Indicator.type := "indicator";
    Indicator.schema_version := schema;
    Indicator.source := "Qualys IOC";
    Indicator.producer := "Qualys IOC";
    Indicator.severity := severity;
    Indicator.valid_time := [];
    Indicator.external_ids := [external_id];
    Indicator.confidence := confidence
  |}.

(** The document [relationship] yields for a source and a target. *)
Definition relationship_doc (type_ : string) (source target : entity)
  : M Relationship.t :=
  uuid ← uuid4;
  mret {|
    Relationship.id := "transient:" +:+ uuid;
    Relationship.type := "relationship";
    Relationship.schema_version := schema;
    Relationship.source := "Qualys IOC";
    Relationship.source_uri := "";
    Relationship.source_ref := entity_id source;
    Relationship.target_ref := entity_id target;
    Relationship.relationship_type := type_;
    Relationship.external_ids := []
  |}.

(** The generator [relationship], run to its end: a document for each
    source and, within it, each target. *)
Definition relationship (sources_ : list entity) (type_ : string)
    (targets_ : list entity) : M (list Relationship.t) :=
  found ← mapM (λ source, mapM (relationship_doc type_ source) targets_) sources_;
  mret (concat found).

Definition map : M Mapped.t :=
  sighting_ ← sighting;
  let sightings := [sighting_] in
  entries ← lift (indicator2 ← get event ".indicator2" VNone;
                  iterate (py_or indicator2 (VList [])));
  judgements ← mapM judgement entries;
  indicator_ ← indicator;
  let indicators := [indicator_] in
  based_on_indicator ← relationship (EJudgement <$> judgements) "based-on"
                                    (EIndicator <$> indicators);
  based_on_judgement ← relationship (ESighting <$> sightings) "based-on"
                                    (EJudgement <$> judgements);
  sighting_of ← relationship (ESighting <$> sightings) "sighting-of"
                             (EIndicator <$> indicators);
  mret {|
    Mapped.sightings := sightings;
    Mapped.judgements := judgements;
    Mapped.indicators := indicators;
    Mapped.relationships := based_on_indicator ++ based_on_judgement ++ sighting_of
  |}.

End Map.

Section Observe.

Variables (self : kind) (api : string) (observable : string).

(** The URL [fetch] asks for. *)
Definition events_url (active_ : bool) : string :=
  if active_ then api +:+ "/ioc/events?state=true&" +:+ "filter=" +:+ filter self observable
  else api +:+ "/ioc/events?" +:+ "filter=" +:+ filter self observable.

Definition fetch (active_ : bool) : M value :=
  let url := events_url active_ in
  response ← requests_get url false;
  response ← (if status_code response =? 401
              then requests_get url true
              else mret response);
  _ ← lift (raise_for_status response);
  lift (json response).

(** [observed[obj] = observed.get(obj, []) + docs] for every item. *)
Definition merge (observed : gmap string (list entity))
    (items : list (string * list entity)) : gmap string (list entity) :=
  foldl (λ observed item, <[item.1 := default [] (observed !! item.1) ++ item.2]> observed)
        observed items.

(** The body of the loop over [[True, False]]. *)
Definition observe_phase (observed : gmap string (list entity)) (active : bool)
  : M (gmap string (list entity)) :=
  events ← fetch active;
  events ← lift (iterate events);
  for_each (λ observed event,
              mapped_ ← map self observable event active;
              mret (merge observed (Mapped.items mapped_)))
           observed events.

Definition observe : M (gmap string (list entity)) :=
  for_each observe_phase ∅ [true; false].

End Observe.

End World.

End Observable.

(** ** Sample data *)

(** The identifier source that numbers its draws. *)
Definition counting_uuid (n : nat) : string := pretty n.

(** A world in which nothing has happened yet. *)
Definition fresh_world : world := World 0 [].

(** An event with a file, two verdict records and an asset with one
    interface. *)
Definition sample_event : value :=
  VDict [
    ("id", VStr "e-1");
    ("dateTime", VStr "2020-01-01T00:00:00Z");
    ("file", VDict [("fileName", VStr "f"); ("sha256", VStr "h")]);
    ("indicator2", VList [
       VDict [("verdict", VStr "KNOWN")];
       VDict [("verdict", VStr "BOGUS"); ("threatName", VStr "Trojan")]]);
    ("asset", VDict [
       ("netBiosName", VStr "HOST");
       ("interfaces", VList [
          VDict [("ipAddress", VStr "10.0.0.1"); ("macAddress", VStr "aa:bb")]])])
  ]%string.

(** An event with nothing but an asset record. *)
Definition bare_event : value := VDict [("asset", VDict [])]%string.

(** A transport that answers the first request with one event and every
    later one with another. *)
Definition two_phase_transport (n : nat) (req : request) : outcome response :=
  match n with
  | O => Ok (Response 200 (Ok (VList [sample_event])))
  | S _ => Ok (Response 200 (Ok (VList [bare_event])))
  end.

(** A transport that rejects the first request as unauthorized and answers
    every later one with no event. *)
Definition expired_token_transport (n : nat) (req : request) : outcome response :=
  match n with
  | O => Ok (Response 401 (Raise JSONDecodeError))
  | S _ => Ok (Response 200 (Ok (VList [])))
  end.

(** A transport that answers every request with status 300 and an empty
    list of events. *)
Definition multiple_choices_transport (n : nat) (req : request) : outcome response :=
  Ok (Response 300 (Ok (VList []))).

(** A transport that answers every request with no event. *)
Definition no_event_transport (n : nat) (req : request) : outcome response :=
  Ok (Response 200 (Ok (VList []))).

(** An event whose second verdict record has a list for a verdict. *)
Definition list_verdict_event : value :=
  VDict [
    ("id", VStr "e-2");
    ("indicator2", VList [
       VDict [("verdict", VStr "MALICIOUS")];
       VDict [("verdict", VList [VStr "KNOWN"])]]);
    ("asset", VDict [])
  ]%string.

(** A transport whose first answer holds an event without an asset record
    after a well-shaped one. *)
Definition rejected_event_transport (n : nat) (req : request) : outcome response :=
  Ok (Response 200 (Ok (VList [bare_event; VDict [("id", VStr "e-3")]]))).

(** A transport that answers with an error object and a success status. *)
Definition error_object_transport (n : nat) (req : request) : outcome response :=
  Ok (Response 200 (Ok (VDict [("error", VStr "rate limit")]))).

(** An event whose file is [null], with a process and a connection. *)
Definition null_file_event : value :=
  VDict [
    ("id", VStr "e-4");
    ("file", VNone);
    ("process", VDict [("processName", VStr "svc.exe")]);
    ("network", VDict [("remoteIP", VStr "10.0.0.2"); ("remoteDns", VStr "c2.example")]);
    ("asset", VDict [])
  ]%string.

(** ** Vocabulary of the statements *)

(** The value a path resolves to; [None] stands in where the lookup raises. *)
Definition resolved (event : value) (path : string) : value :=
  match get event path VNone with
  | Ok v => v
  | Raise _ => VNone
  end.

(** Both lookups of a rule return. *)
Definition rule_resolves (event : value) (r : rule) : bool :=
  is_Ok (get event r.1.1.2 VNone) && is_Ok (get event r.2.2 VNone).

(** Both paths of a rule resolve to truthy values. *)
Definition rule_fires (event : value) (r : rule) : bool :=
  truthy (resolved event r.1.1.2) && truthy (resolved event r.2.2).

(** The relation a rule stands for. *)
Definition rule_relation (event : value) (r : rule) : Relation.t :=
  {| Relation.origin := "Qualys IOC";
     Relation.related := Typed.Make r.2.1 (resolved event r.2.2);
     Relation.relation := r.1.2;
     Relation.source := Typed.Make r.1.1.1 (resolved event r.1.1.2) |}.

(** A sub-record of an event that is a dict, or is not there. *)
Definition record_or_absent (d : list (string * value)) (key : string) : bool :=
  match assoc key d with
  | None | Some (VDict _) => true
  | Some _ => false
  end.

Definition is_record (v : value) : bool :=
  match v with
  | VDict _ => true
  | _ => false
  end.

(** A verdict record: a dict whose verdict, if any, can be hashed. *)
Definition verdict_record (entry : value) : bool :=
  match entry with
  | VDict kv =>
      match assoc "verdict" kv with
      | Some (VList _ | VDict _) => false
      | _ => true
      end
  | _ => false
  end.

(** A field that is absent, falsy, or a list of acceptable items. *)
Definition list_field (acceptable : value → bool) (field : option value) : bool :=
  match field with
  | None => true
  | Some v =>
      if truthy v then
        match v with
        | VList l => forallb acceptable l
        | _ => false
        end
      else true
  end.

(** The shape of the events the API documents: a dict whose asset record is
    present, whose other sub-records are dicts where they are present, whose
    interfaces are dicts and whose verdict records are dicts. *)
Definition well_shaped (event : value) : bool :=
  match event with
  | VDict d =>
      record_or_absent d "file" && record_or_absent d "process" &&
      record_or_absent d "network" &&
      match assoc "asset" d with
      | Some (VDict asset) => list_field is_record (assoc "interfaces" asset)
      | _ => false
      end &&
      list_field verdict_record (assoc "indicator2" d)
  | _ => false
  end.

(** The identifier built from the [n]-th draw of [uuid4]. *)
Definition transient (uuid4_str : nat → string) (n : nat) : string :=
  "transient:" +:+ uuid4_str n.

(** The relationship document that links a pair of documents. *)
Definition link (type_ id : string) (pair : entity * entity) : Relationship.t :=
  {| Relationship.id := id;
     Relationship.type := "relationship";
     Relationship.schema_version := "1.0.16";
     Relationship.source := "Qualys IOC";
     Relationship.source_uri := "";
     Relationship.source_ref := entity_id pair.1;
     Relationship.target_ref := entity_id pair.2;
     Relationship.relationship_type := type_;
     Relationship.external_ids := [] |}.

(** The documents that link the pairs, the [k]-th with the identifier of
    draw [first + k]. *)
Definition link_all (uuid4_str : nat → string) (first : nat) (type_ : string)
    (pairs : list (entity * entity)) : list Relationship.t :=
  imap (λ k, link type_ (transient uuid4_str (first + k))) pairs.

(** The edge a relationship document stands for. *)
Definition edge (r : Relationship.t) : string * string * string :=
  (Relationship.source_ref r, Relationship.relationship_type r, Relationship.target_ref r).

(** The disposition the specification gives a verdict. *)
Definition claimed_disposition (verdict : option value) : Z * string :=
  match verdict with
  | Some (VStr s) =>
      if decide (s = "KNOWN") then (1, "Clean")
      else if decide (s = "UNKNOWN") then (5, "Unknown")
      else if decide (s = "MALICIOUS") then (2, "Malicious")
      else if decide (s = "REMEDIATED") then (2, "Malicious")
      else (5, "Unknown")
  | _ => (5, "Unknown")
  end%string.

(** All documents of a result, in the order of its keys. *)
Definition documents (m : Mapped.t) : list entity := (Mapped.items m).*2 ≫= id.

(** The judgement document of a verdict record. *)
Definition judgement_of (self : kind) (observable : string) (external_id : value)
    (kv : list (string * value)) (id : string) : Judgement.t :=
  {| Judgement.id := id;
     Judgement.confidence := "High";
     Judgement.disposition := (claimed_disposition (assoc "verdict" kv)).1;
     Judgement.disposition_name := (claimed_disposition (assoc "verdict" kv)).2;
     Judgement.external_ids := [external_id];
     Judgement.external_references := [];
     Judgement.observable := Typed.Make (Observable.type self) (VStr observable);
     Judgement.priority := 90;
     Judgement.reason :=
       match assoc "threatName" kv with Some name => name | None => VStr "" end;
     Judgement.schema_version := "1.0.16";
     Judgement.severity := "Medium";
     Judgement.source := "Qualys IOC";
     Judgement.type := "judgement";
     Judgement.valid_time := [] |}.

(** The indicator document of an event. *)
Definition indicator_of (external_id : value) (id : string) : Indicator.t :=
  {| Indicator.id := id;
     Indicator.type := "indicator";
     Indicator.schema_version := "1.0.16";
     Indicator.source := "Qualys IOC";
     Indicator.producer := "Qualys IOC";
     Indicator.severity := "Medium";
     Indicator.valid_time := [];
     Indicator.external_ids := [external_id];
     Indicator.confidence := "High" |}.

(** The entries of an event's verdict list, as the comprehension of [map]
    iterates them. *)
Definition verdict_entries (event : value) : outcome (list value) :=
  indicator2 ← get event ".indicator2" VNone;
  iterate (py_or indicator2 (VList [])).

(** The requests of one fetch: the first with the cached credentials and,
    if it was retried, the second with fresh ones. *)
Definition phase_requests (url : string) (retried : bool) : list request :=
  Request url false :: (if retried then [Request url true] else []).

(** What the response that remains makes of a fetch: [HTTPError] for a
    status from 400 to 599, the outcome of [response.json()] for any other
    (the parsed body, or the error of the decoding). *)
Definition settled (r : response) : outcome value :=
  if decide (400 ≤ status_code r < 600) then Raise (HTTPError (status_code r))
  else json r.

(** [observed.get(key, [])]. *)
Definition docs_at (observed : gmap string (list entity)) (key : string) : list entity :=
  default [] (observed !! key).

(** The list a result binds a key to, empty for a key it does not have. *)
Definition docs_of (r : Mapped.t) (key : string) : list entity :=
  match assoc key (Mapped.items r) with
  | Some docs => docs
  | None => []
  end.

(** The keys of a result. *)
Definition four_keys : gset string :=
  {[ "sightings"; "judgements"; "indicators"; "relationships" ]}%string.

(** A world after [n] more draws. *)
Definition after_draws (n : nat) (w : world) : world := World (drawn w + n) (sent w).

(** The hostname entry of an asset record: there when the name is truthy. *)
Definition hostname_entry (asset : list (string * value)) : list Typed.t :=
  match assoc "netBiosName" asset with
  | Some name => if truthy name then [Typed.Make "hostname" name] else []
  | None => []
  end.

(** The result of [map], assembled from its sighting, the verdict records and
    the world it started in. *)
Definition mapped_of (uuid4_str : nat → string) (self : kind) (observable : string) (event : value)
    (s : Sighting.t) (kvs : list (list (string * value))) (first : nat) : Mapped.t :=
  let n := length kvs in
  let js := imap (λ k kv, judgement_of self observable (resolved event ".id") kv
                            (transient uuid4_str (first + 1 + k))) kvs in
  let i := indicator_of (resolved event ".id") (transient uuid4_str (first + 1 + n)) in
  {| Mapped.sightings := [s];
     Mapped.judgements := js;
     Mapped.indicators := [i];
     Mapped.relationships :=
       link_all uuid4_str (first + 2 + n) "based-on"
                (list_prod (EJudgement <$> js) [EIndicator i]) ++
       link_all uuid4_str (first + 2 + 2 * n) "based-on"
                (list_prod [ESighting s] (EJudgement <$> js)) ++
       link_all uuid4_str (first + 2 + 3 * n) "sighting-of"
                (list_prod [ESighting s] [EIndicator i]) |}.

(** The results of a run of events, merged one after the other. *)
Definition merge_all (observed : gmap string (list entity)) (rs : list Mapped.t)
  : gmap string (list entity) :=
  foldl (λ observed r, Observable.merge observed (Mapped.items r)) observed rs.

(** Every character of a string passes a test. *)
Fixpoint all_chars (test : Ascii.ascii → bool) (s : string) : bool :=
  match s with
  | EmptyString => true
  | String c rest => test c && all_chars test rest
  end.

(** A segment of a path: a string without a period. *)
Definition dot_free (s : string) : bool :=
  all_chars (λ c, negb (Ascii.eqb c ".")) s.

(** The path that names the segments, a period before each. *)
Definition dotted (segments : list string) : string :=
  foldr (λ segment path, "." +:+ segment +:+ path) EmptyString segments.

(** Where the segments lead in nested dicts: to a value, to a dict that
    does not bind the next segment, or to something that is not a dict. *)
Inductive reach : Type :=
  | Found (v : value)
  | Missing
  | Blocked.

Fixpoint reach_of (v : value) (segments : list string) : reach :=
  match segments with
  | [] => Found v
  | segment :: segments' =>
      match v with
      | VDict d =>
          match assoc segment d with
          | Some v' => reach_of v' segments'
          | None => Missing
          end
      | _ => Blocked
      end
  end.

(** The entries of one interface record: its address, then its MAC. *)
Definition interface_entries (kv : list (string * value)) : list Typed.t :=
  match assoc "ipAddress" kv with
  | Some address => if truthy address then [Typed.Make "ip" address] else []
  | None => []
  end ++
  match assoc "macAddress" kv with
  | Some address => if truthy address then [Typed.Make "mac_address" address] else []
  | None => []
  end.

(** A computation that, whatever its outcome, sends no request: it leaves
    the world as it was but for the identifiers it drew. *)
Definition draws_only {A} (m : M A) : Prop :=
  ∀ w o w', m w = (o, w') → ∃ n, w' = after_draws n w.

(** The first entry of a verdict list that [judgement] cannot take. *)
Definition first_offender (entries : list value) : option value :=
  find (λ entry, negb (verdict_record entry)) entries.

(** The shape of an event on which the sighting is built: as [well_shaped],
    the verdict list apart. *)
Definition sighting_shaped (event : value) : bool :=
  match event with
  | VDict d =>
      record_or_absent d "file" && record_or_absent d "process" &&
      record_or_absent d "network" &&
      match assoc "asset" d with
      | Some (VDict asset) => list_field is_record (assoc "interfaces" asset)
      | _ => false
      end
  | _ => false
  end.

(** A sighting with the row of its data table set for another phase. *)
Definition with_active (active : bool) (s : Sighting.t) : Sighting.t :=
  {| Sighting.id := Sighting.id s;
     Sighting.confidence := Sighting.confidence s;
     Sighting.count := Sighting.count s;
     Sighting.external_ids := Sighting.external_ids s;
     Sighting.external_references := Sighting.external_references s;
     Sighting.observables := Sighting.observables s;
     Sighting.start_time := Sighting.start_time s;
     Sighting.relations := Sighting.relations s;
     Sighting.schema_version := Sighting.schema_version s;
     Sighting.severity := Sighting.severity s;
     Sighting.sensor := Sighting.sensor s;
     Sighting.source := Sighting.source s;
     Sighting.targets := Sighting.targets s;
     Sighting.type := Sighting.type s;
     Sighting.description := Sighting.description s;
     Sighting.data :=
       {| Data.columns := Data.columns (Sighting.data s);
          Data.rows := [[str_bool active]];
          Data.row_count := Data.row_count (Sighting.data s) |} |}.

(** A result with its sightings set for another phase. *)
Definition retagged (active : bool) (r : Mapped.t) : Mapped.t :=
  {| Mapped.sightings := with_active active <$> Mapped.sightings r;
     Mapped.judgements := Mapped.judgements r;
     Mapped.indicators := Mapped.indicators r;
     Mapped.relationships := Mapped.relationships r |}.

(** All documents of what [observe] returns, key after key. *)
Definition all_docs (observed : gmap string (list entity)) : list entity :=
  docs_at observed "sightings" ++ docs_at observed "judgements" ++
  docs_at observed "indicators" ++ docs_at observed "relationships".

(** The characters of an escaped string: those [quote] keeps, and the
    percent sign of its escapes. *)
Definition url_char (c : Ascii.ascii) : bool := urllib.safe c || Ascii.eqb c "%".

(** The value of a hexadecimal digit of [quote]. *)
Definition hex_value (c : Ascii.ascii) : N :=
  let n := Ascii.N_of_ascii c in
  if (n <? 58)%N then (n - 48)%N else (n - 55)%N.

(** The reading of an escaped string: each [%XX] stands for a character. *)
Fixpoint percent_decode (s : string) : string :=
  match s with
  | EmptyString => EmptyString
  | String c rest =>
      if Ascii.eqb c "%" then
        match rest with
        | String high (String low rest') =>
            String (Ascii.ascii_of_N (16 * hex_value high + hex_value low))
                   (percent_decode rest')
        | _ => s
        end
      else String c (percent_decode rest)
  end.

(** A value that is neither a container nor a string: [None], a boolean or
    a number. *)
Definition is_scalar (v : value) : bool :=
  match v with
  | VNone | VBool _ | VInt _ | VFloat _ => true
  | VStr _ | VList _ | VDict _ => false
  end.

(** * Properties *)

(** ** The path accessor *)

Lemma get_path event path parts default :
  tail (split "."%char path) = parts →
  get event path default = get_parts event parts default.
Proof. intros <-. reflexivity. Qed.

Lemma contains_dict d part :
  contains (VDict d) part = Ok (bool_decide (is_Some (assoc part d))).
Proof. reflexivity. Qed.

(** One step of the loop on a dict: descend into the binding, or stop with
    the default. *)
Lemma get_parts_dict d part parts default :
  get_parts (VDict d) (part :: parts) default =
  match assoc part d with
  | Some v => get_parts v parts default
  | None => Ok default
  end.
Proof.
  simpl. by destruct (assoc part d).
Qed.

(** On a scalar the membership test itself raises. *)
Lemma get_parts_scalar v part parts default :
  match v with VNone | VBool _ | VInt _ | VFloat _ => True | _ => False end →
  get_parts v (part :: parts) default = Raise TypeError.
Proof. by destruct v. Qed.

(** A path of dict-bound segments is walked to its end. *)
Lemma get_parts_absent d part parts default :
  assoc part d = None → get_parts (VDict d) (part :: parts) default = Ok default.
Proof. intros H. by rewrite get_parts_dict, H. Qed.

(** The first two examples of the specification hold of the code. *)
Lemma get_empty_record default : get (VDict []) ".a.b" default = Ok default.
Proof. reflexivity. Qed.

Lemma get_nested_record default :
  get (VDict [("a", VDict [("b", VInt 1)])]) ".a.b" default = Ok (VInt 1).
Proof. reflexivity. Qed.

(** C5: [get] is to return the default, without raising, when the path does
    not apply to the record's shape; on [{"a": 1}] and the path [".a.b"] the
    test ['b' in 1] raises [TypeError] instead, whatever the default. *)
Theorem get_scalar_segment_raises default :
  get (VDict [("a", VInt 1)]) ".a.b" default = Raise TypeError.
Proof. reflexivity. Qed.

(** ** The registry of observables and their filters *)

(** C8: the registry returns each kind for its own type tag and nothing for
    a tag of no kind; every filter holds the raw value, copied as it is,
    after a prefix fixed by the kind; the IP filter is the [or] of a
    local-address and a remote-address match; every other filter is one
    field, fixed by the kind (the six fields are listed), matched against the
    value between double quotes, whatever characters the value holds. *)
Theorem registry_and_filters :
  (∀ k, Observable.of_ (Observable.type k) = Some k) ∧
  (∀ tag, (∀ k, Observable.type k ≠ tag) → Observable.of_ tag = None) ∧
  (∀ k, ∃ before, ∀ v, ∃ after, Observable.filter k v = before +:+ v +:+ after) ∧
  (∀ v, Observable.filter IP v =
        "network.local.address.ip: " +:+ Observable.quote +:+ v +:+ Observable.quote +:+
        " or network.remote.address.ip: " +:+ Observable.quote +:+ v +:+ Observable.quote) ∧
  (∀ k, k ≠ IP →
     ∃ field,
       (k, field) ∈ [ (MD5, "file.hash.md5"); (SHA256, "file.hash.sha256");
                      (FileName, "file.name"); (FilePath, "file.fullPath");
                      (Domain, "network.remote.address.fqdn");
                      (Mutex, "handle.name") ]%string ∧
       ∀ v, Observable.filter k v =
            field +:+ ": " +:+ Observable.quote +:+ v +:+ Observable.quote).
Proof.
  split; [by intros []|].
  split.
  { intros tag Htag. unfold Observable.of_.
    destruct (find _ _) as [k|] eqn:Hfind; [|done].
    apply find_some in Hfind as [_ Heq]. apply String.eqb_eq in Heq.
    by destruct (Htag k). }
  split.
  { intros k. destruct k.
    - exists ("file.hash.md5: " +:+ Observable.quote). intros v.
      by exists Observable.quote.
    - exists ("file.hash.sha256: " +:+ Observable.quote). intros v.
      by exists Observable.quote.
    - exists ("file.name: " +:+ Observable.quote). intros v.
      by exists Observable.quote.
    - exists ("file.fullPath: " +:+ Observable.quote). intros v.
      by exists Observable.quote.
    - exists ("network.local.address.ip: " +:+ Observable.quote). intros v.
      by exists (Observable.quote +:+ " or network.remote.address.ip: " +:+
                 Observable.quote +:+ v +:+ Observable.quote).
    - exists ("network.remote.address.fqdn: " +:+ Observable.quote). intros v.
      by exists Observable.quote.
    - exists ("handle.name: " +:+ Observable.quote). intros v.
      by exists Observable.quote. }
  split; [reflexivity|].
  intros k Hk. destruct k; try done.
  - exists "file.hash.md5". split; [set_solver|done].
  - exists "file.hash.sha256". split; [set_solver|done].
  - exists "file.name". split; [set_solver|done].
  - exists "file.fullPath". split; [set_solver|done].
  - exists "network.remote.address.fqdn". split; [set_solver|done].
  - exists "handle.name". split; [set_solver|done].
Qed.

(** ** The relation inferencer *)

Lemma resolved_Ok event path v : get event path VNone = Ok v → resolved event path = v.
Proof. unfold resolved. by intros ->. Qed.

(** While every lookup returns, the generator yields the relations of the
    rules that fire, in the order of the rules. *)
Lemma mapped_resolving event rs :
  forallb (rule_resolves event) rs = true →
  mapped event rs = Ok (rule_relation event <$> List.filter (rule_fires event) rs).
Proof.
  induction rs as [|[[[source_type source_path] relation] [target_type target_path]] rs IH];
    [done|].
  intros [[Hs Ht]%andb_prop Hrs]%andb_prop.
  unfold rule_resolves in Hs, Ht. simpl in Hs, Ht.
  destruct (get event source_path VNone) as [sv|] eqn:Es; [|done].
  destruct (get event target_path VNone) as [tv|] eqn:Et; [|done].
  set (r := (source_type, source_path, relation, (target_type, target_path))).
  assert (rule_fires event r = truthy sv && truthy tv) as Hfires.
  { unfold rule_fires. simpl. by rewrite (resolved_Ok _ _ _ Es), (resolved_Ok _ _ _ Et). }
  assert (rule_relation event r =
          {| Relation.origin := "Qualys IOC";
             Relation.related := Typed.Make target_type tv;
             Relation.relation := relation;
             Relation.source := Typed.Make source_type sv |}) as Hrel.
  { unfold rule_relation. simpl. by rewrite (resolved_Ok _ _ _ Es), (resolved_Ok _ _ _ Et). }
  cbn [mapped List.filter]. subst r. cbn beta iota.
  rewrite Es, Et, (IH Hrs), Hfires. simpl.
  destruct (truthy sv && truthy tv); [|done].
  by rewrite fmap_cons, Hrel.
Qed.

(** The generator returns only if every lookup did. *)
Lemma mapped_Ok_resolves event rs out :
  mapped event rs = Ok out → forallb (rule_resolves event) rs = true.
Proof.
  revert out.
  induction rs as [|[[[source_type source_path] relation] [target_type target_path]] rs IH];
    [done|].
  intros out. simpl. unfold rule_resolves at 1. simpl.
  destruct (get event source_path VNone) as [sv|]; [|done].
  destruct (get event target_path VNone) as [tv|]; [|done].
  simpl. destruct (mapped event rs) as [rest|] eqn:Hrest; [|done].
  intros _. by apply (IH rest).
Qed.

(** The lookups of the rules return on an event whose [file], [process] and
    [network] are dicts or absent. *)
Lemma get_two_levels d outer inner :
  record_or_absent d outer = true →
  is_Ok (get_parts (VDict d) [outer; inner] VNone) = true.
Proof.
  unfold record_or_absent. rewrite get_parts_dict.
  destruct (assoc outer d) as [[]|]; try done.
  intros _. rewrite get_parts_dict. by destruct (assoc inner _).
Qed.

Lemma rules_resolve_on_records d :
  record_or_absent d "file" = true →
  record_or_absent d "process" = true →
  record_or_absent d "network" = true →
  forallb (rule_resolves (VDict d)) rules = true.
Proof.
  intros Hf Hp Hn.
  pose proof (get_two_levels d "file" "fileName" Hf).
  pose proof (get_two_levels d "file" "fullPath" Hf).
  pose proof (get_two_levels d "file" "sha256" Hf).
  pose proof (get_two_levels d "file" "md5" Hf).
  pose proof (get_two_levels d "process" "processName" Hp).
  pose proof (get_two_levels d "network" "remoteIP" Hn).
  pose proof (get_two_levels d "network" "remoteDns" Hn).
  unfold rules, rule_resolves. cbn [forallb fst snd].
  repeat (apply andb_true_intro; split); done.
Qed.

(** X21: the inferencer holds the seven rules in the order of their
    declaration; while the lookups return, it yields, in that order, the
    relation of every rule whose source and target paths both resolve to
    truthy values, and of no other rule, each of the shape
    [{origin: "Qualys IOC", relation, source: {type, value}, related:
    {type, value}}]; rules are decided one by one, so a rule that does not
    fire leaves the others as they are.  The lookups return on every event
    whose [file], [process] and [network] are dicts or absent, and if one
    raises the inferencer does not return. *)
Theorem relations_by_rule event :
  rules = [
    (("file_name", ".file.fileName"), "File_Name_Of", ("sha256", ".file.sha256"));
    (("file_name", ".file.fileName"), "File_Name_Of", ("md5", ".file.md5"));
    (("file_path", ".file.fullPath"), "File_Path_Of", ("sha256", ".file.sha256"));
    (("file_path", ".file.fullPath"), "File_Path_Of", ("md5", ".file.md5"));
    (("file_name", ".process.processName"), "Connected_To", ("ip", ".network.remoteIP"));
    (("file_name", ".process.processName"), "Connected_To", ("domain", ".network.remoteDns"));
    (("ip", ".network.remoteIP"), "Resolved_To", ("domain", ".network.remoteDns"))
  ]%string ∧
  (forallb (rule_resolves event) rules = true →
   relations event = Ok (rule_relation event <$> List.filter (rule_fires event) rules)) ∧
  (∀ out, relations event = Ok out → forallb (rule_resolves event) rules = true) ∧
  (∀ d, event = VDict d →
        record_or_absent d "file" = true → record_or_absent d "process" = true →
        record_or_absent d "network" = true →
        forallb (rule_resolves event) rules = true).
Proof.
  split; [reflexivity|]. split; [apply mapped_resolving|].
  split; [intros out; apply mapped_Ok_resolves|].
  intros d ->. apply rules_resolve_on_records.
Qed.

(** C9: a rule whose value is missing is not to suppress the other rules,
    for every event; on the event whose file is [null] the process name, the
    remote address and the remote name all resolve to truthy values, so the
    three last rules fire, yet the first lookup, of [.file.fileName], raises
    [TypeError] at ['fileName' in None] and the inferencer yields no relation
    at all. *)
Theorem relations_suppressed_by_null_file :
  get null_file_event ".process.processName" VNone = Ok (VStr "svc.exe") ∧
  get null_file_event ".network.remoteIP" VNone = Ok (VStr "10.0.0.2") ∧
  get null_file_event ".network.remoteDns" VNone = Ok (VStr "c2.example") ∧
  List.filter (rule_fires null_file_event) rules =
    [ (("file_name", ".process.processName"), "Connected_To", ("ip", ".network.remoteIP"));
      (("file_name", ".process.processName"), "Connected_To",
       ("domain", ".network.remoteDns"));
      (("ip", ".network.remoteIP"), "Resolved_To", ("domain", ".network.remoteDns")) ]%string ∧
  get null_file_event ".file.fileName" VNone = Raise TypeError ∧
  relations null_file_event = Raise TypeError.
Proof. repeat split; reflexivity. Qed.

(** ** Computations in the world *)

Lemma bind_Ok {A B} (m : M A) (f : A → M B) w a w' :
  m w = (Ok a, w') → (m ≫= f) w = f a w'.
Proof. unfold mbind, M_bind. by intros ->. Qed.

Lemma bind_Raise {A B} (m : M A) (f : A → M B) w e w' :
  m w = (Raise e, w') → (m ≫= f) w = (Raise e, w').
Proof. unfold mbind, M_bind. by intros ->. Qed.

Lemma bind_Ok_inv {A B} (m : M A) (f : A → M B) w b w'' :
  (m ≫= f) w = (Ok b, w'') → ∃ a w', m w = (Ok a, w') ∧ f a w' = (Ok b, w'').
Proof.
  unfold mbind, M_bind. destruct (m w) as [[a|e] w']; [|done]. eauto.
Qed.

Lemma bind_lift {A B} (o : outcome A) (f : A → M B) w :
  (lift o ≫= f) w = match o with Ok a => f a w | Raise e => (Raise e, w) end.
Proof. unfold mbind, M_bind, lift. by destruct o. Qed.

Lemma mapM_cons_run {A B} (f : A → M B) x l w :
  mapM f (x :: l) w =
  match f x w with
  | (Ok y, w') =>
      match mapM f l w' with
      | (Ok ys, w'') => (Ok (y :: ys), w'')
      | (Raise e, w'') => (Raise e, w'')
      end
  | (Raise e, w') => (Raise e, w')
  end.
Proof.
  cbn [mapM]. unfold mbind at 1, M_bind at 1.
  destruct (f x w) as [[y|e] w']; [|done].
  unfold mbind, M_bind. by destruct (mapM f l w') as [[ys|e] w''].
Qed.

Section WorldProperties.

Variable uuid4_str : nat → string.
Variable transport : nat → request → outcome response.

#[local] Abbreviation uuid4 := (Observable.uuid4 uuid4_str).
#[local] Abbreviation relationship := (Observable.relationship uuid4_str).
#[local] Abbreviation sighting := (Observable.sighting uuid4_str).
#[local] Abbreviation judgement := (Observable.judgement uuid4_str).
#[local] Abbreviation indicator := (Observable.indicator uuid4_str).
#[local] Abbreviation map := (Observable.map uuid4_str).
#[local] Abbreviation fetch := (Observable.fetch transport).
#[local] Abbreviation observe := (Observable.observe uuid4_str transport).
#[local] Abbreviation observe_phase := (Observable.observe_phase uuid4_str transport).
#[local] Abbreviation tid := (transient uuid4_str).

Lemma after_draws_0 w : after_draws 0 w = w.
Proof. destruct w. unfold after_draws. simpl. by rewrite Nat.add_0_r. Qed.

Lemma after_draws_add n m w : after_draws m (after_draws n w) = after_draws (n + m) w.
Proof. unfold after_draws. simpl. f_equal. lia. Qed.

Lemma uuid4_run w : uuid4 w = (Ok (uuid4_str (drawn w)), after_draws 1 w).
Proof. unfold Observable.uuid4, after_draws. do 2 f_equal. lia. Qed.

(** *** The relationship generator *)

(** The inner loop: one document per target, in order. *)
Lemma relationship_inner source type_ targets_ w :
  mapM (Observable.relationship_doc uuid4_str type_ source) targets_ w =
  (Ok (link_all uuid4_str (drawn w) type_ (pair source <$> targets_)),
   after_draws (length targets_) w).
Proof.
  revert w. induction targets_ as [|target targets_ IH]; intros w.
  { simpl. unfold mret, M_ret. by rewrite after_draws_0. }
  rewrite mapM_cons_run. unfold Observable.relationship_doc at 1.
  rewrite (bind_Ok _ _ _ _ _ (uuid4_run w)). unfold mret at 1, M_ret at 1.
  rewrite IH, after_draws_add. cbn [length Nat.add]. do 2 f_equal.
  unfold link_all. rewrite fmap_cons, imap_cons. f_equal.
  - unfold link, transient. simpl. by rewrite Nat.add_0_r.
  - apply imap_ext. intros k p _. simpl. do 2 f_equal. lia.
Qed.

(** The generator always returns: it yields one document per pair of the
    cross product, sources outermost, and draws one identifier for each. *)
Lemma relationship_run sources_ type_ targets_ w :
  relationship sources_ type_ targets_ w =
  (Ok (link_all uuid4_str (drawn w) type_ (list_prod sources_ targets_)),
   after_draws (length sources_ * length targets_) w).
Proof.
  unfold Observable.relationship.
  enough (∀ w, ∃ found,
    mapM (λ source, mapM (Observable.relationship_doc uuid4_str type_ source) targets_)
         sources_ w =
      (Ok found, after_draws (length sources_ * length targets_) w) ∧
    concat found = link_all uuid4_str (drawn w) type_ (list_prod sources_ targets_))
    as Hfound.
  { destruct (Hfound w) as (found & Hrun & Hconcat).
    rewrite (bind_Ok _ _ _ _ _ Hrun). unfold mret, M_ret. by rewrite Hconcat. }
  clear w. induction sources_ as [|source sources_ IH]; intros w.
  { exists []. simpl. unfold mret, M_ret. by rewrite after_draws_0. }
  destruct (IH (after_draws (length targets_) w)) as (found & Hrun & Hconcat).
  eexists (_ :: found). split.
  - rewrite mapM_cons_run, relationship_inner, Hrun, after_draws_add. done.
  - simpl. rewrite Hconcat. unfold link_all. rewrite imap_app. f_equal.
    rewrite length_fmap. simpl. apply imap_ext. intros k p _. simpl.
    do 2 f_equal. lia.
Qed.

(** *** The documents of one event *)

(** Runs the pure steps of a computation in hypothesis [H], which returned. *)
Ltac run_lifts H :=
  repeat (cbv beta in H; rewrite bind_lift in H; cbv beta iota in H;
          try match type of H with
              | match ?o with Ok _ => _ | Raise _ => _ end = _ =>
                  let E := fresh "E" in destruct o eqn:E; [|discriminate H]
              end).

Lemma sighting_Ok_inv self observable event active w s w' :
  sighting self observable event active w = (Ok s, w') →
  w' = after_draws 1 w ∧
  ∃ external_id start_time relations_ targets_ os,
    get event ".id" VNone = Ok external_id ∧
    get event ".dateTime" VNone = Ok start_time ∧
    relations event = Ok relations_ ∧
    targets event = Ok targets_ ∧
    get event ".asset.fullOSName" VNone = Ok os ∧
    s = {|
      Sighting.id := tid (drawn w);
      Sighting.confidence := "High";
      Sighting.count := 1;
      Sighting.external_ids := [external_id];
      Sighting.external_references := [];
      Sighting.observables := [Typed.Make (Observable.type self) (VStr observable)];
      Sighting.start_time := start_time;
      Sighting.relations := relations_;
      Sighting.schema_version := "1.0.16";
      Sighting.severity := "Medium";
      Sighting.sensor := "endpoint";
      Sighting.source := "Qualys IOC";
      Sighting.targets := [
        {| Target.observables := targets_;
           Target.start_time := start_time;
           Target.type := "endpoint";
           Target.os := os |} ];
      Sighting.type := "sighting";
      Sighting.description :=
        "A Qualys IOC event related to " +:+ Observable.quote +:+ observable +:+
        Observable.quote;
      Sighting.data :=
        {| Data.columns := [Column.Make "Active" "string"];
           Data.rows := [[str_bool active]];
           Data.row_count := 1 |}
    |}.
Proof.
  unfold Observable.sighting. intros H.
  rewrite (bind_Ok _ _ _ _ _ (uuid4_run w)) in H.
  run_lifts H. cbv beta in H. unfold mret, M_ret in H.
  injection H as <- <-. split; [done|].
  by eexists _, _, _, _, _.
Qed.

Lemma sighting_returns self observable event active w :
  is_Ok (get event ".id" VNone) = true →
  is_Ok (get event ".dateTime" VNone) = true →
  is_Ok (relations event) = true →
  is_Ok (targets event) = true →
  is_Ok (get event ".asset.fullOSName" VNone) = true →
  ∃ s, sighting self observable event active w = (Ok s, after_draws 1 w).
Proof.
  intros H1 H2 H3 H4 H5. unfold Observable.sighting.
  rewrite (bind_Ok _ _ _ _ _ (uuid4_run w)). cbv beta.
  destruct (get event ".id" VNone); [|done].
  destruct (get event ".dateTime" VNone); [|done].
  destruct (relations event); [|done].
  destruct (targets event); [|done].
  destruct (get event ".asset.fullOSName" VNone); [|done].
  rewrite !bind_lift. unfold mret, M_ret. eauto.
Qed.

Lemma assoc_cons {A} key k (v : A) d :
  assoc key ((k, v) :: d) = if String.eqb k key then Some v else assoc key d.
Proof. reflexivity. Qed.

(** What the code's two tables and their [or] defaults give a verdict. *)
Lemma disposition_tables verdict code name :
  Observable.table_get [("KNOWN", 1); ("UNKNOWN", 5); ("MALICIOUS", 2);
                        ("REMEDIATED", 2)]%string verdict = Ok code →
  Observable.table_get [("KNOWN", "Clean"); ("UNKNOWN", "Unknown");
                        ("MALICIOUS", "Malicious");
                        ("REMEDIATED", "Malicious")]%string verdict = Ok name →
  (match code with Some c => if c =? 0 then 5 else c | None => 5 end,
   match name with Some n => if String.eqb n "" then "Unknown" else n | None => "Unknown" end%string)
  = claimed_disposition (Some verdict).
Proof.
  destruct verdict as [| | | |s| |]; try (by intros [= <-] [= <-]).
  unfold Observable.table_get, claimed_disposition. rewrite !assoc_cons.
  intros Hcode Hname.
  destruct (String.eqb_spec "KNOWN" s) as [<-|?].
  { by injection Hcode as <-; injection Hname as <-. }
  destruct (String.eqb_spec "UNKNOWN" s) as [<-|?].
  { by injection Hcode as <-; injection Hname as <-. }
  destruct (String.eqb_spec "MALICIOUS" s) as [<-|?].
  { by injection Hcode as <-; injection Hname as <-. }
  destruct (String.eqb_spec "REMEDIATED" s) as [<-|?].
  { by injection Hcode as <-; injection Hname as <-. }
  injection Hcode as <-; injection Hname as <-.
  by repeat (case_decide; [congruence|]).
Qed.

Lemma outcome_bind_Ok_inv {A B} (m : outcome A) (f : A → outcome B) b :
  m ≫= f = Ok b → ∃ a, m = Ok a ∧ f a = Ok b.
Proof. destruct m as [a|e]; [|done]. eauto. Qed.

Lemma dict_get_Ok_inv obj key default v :
  dict_get obj key default = Ok v →
  ∃ kv, obj = VDict kv ∧ v = match assoc key kv with Some x => x | None => default end.
Proof.
  destruct obj; try done. simpl. intros H. eexists; split; [done|].
  destruct (assoc key d); by injection H as <-.
Qed.

Lemma judgement_Ok_inv self observable event entry w j w' :
  judgement self observable event entry w = (Ok j, w') →
  w' = after_draws 1 w ∧
  ∃ kv external_id,
    entry = VDict kv ∧ get event ".id" VNone = Ok external_id ∧
    j = judgement_of self observable external_id kv (tid (drawn w)).
Proof.
  unfold Observable.judgement. intros H. run_lifts H.
  match goal with
  | E : dict_get entry "verdict" VNone = Ok ?verdict |- _ =>
      apply dict_get_Ok_inv in E as (kv & -> & Hverdict)
  end.
  repeat match goal with
  | E : _ ≫= _ = Ok _ |- _ =>
      let found := fresh "found" in
      let Hfound := fresh "Hfound" in
      apply outcome_bind_Ok_inv in E as (found & Hfound & [= <-])
  end.
  cbv beta in H. rewrite (bind_Ok _ _ _ _ _ (uuid4_run w)) in H.
  run_lifts H. cbv beta in H. unfold mret, M_ret in H. injection H as <- <-.
  split; [done|].
  match goal with
  | Hid : get event ".id" VNone = Ok ?x |- _ =>
      exists kv, x; split; [done|]; split; [done|]
  end.
  match goal with
  | Hreason : dict_get (VDict kv) "threatName" _ = Ok _ |- _ =>
      apply dict_get_Ok_inv in Hreason as (kv' & [= <-] & ->)
  end.
  match goal with
  | H1 : Observable.table_get _ _ = Ok ?code, H2 : Observable.table_get _ _ = Ok ?name |- _ =>
      first [ pose proof (disposition_tables _ _ _ H1 H2) as Htables
            | pose proof (disposition_tables _ _ _ H2 H1) as Htables ]
  end.
  assert (∀ verdict, verdict = match assoc "verdict" kv with Some x => x | None => VNone end →
            claimed_disposition (Some verdict) = claimed_disposition (assoc "verdict" kv))
    as Hsame.
  { intros ? ->. by destruct (assoc "verdict" kv). }
  rewrite (Hsame _ Hverdict) in Htables.
  unfold judgement_of. by rewrite <-Htables.
Qed.

Lemma judgement_returns self observable event entry w :
  is_Ok (get event ".id" VNone) = true →
  verdict_record entry = true →
  ∃ j, judgement self observable event entry w = (Ok j, after_draws 1 w).
Proof.
  intros Hid Hentry. destruct entry as [| | | | | |kv]; try done.
  unfold Observable.judgement. rewrite bind_lift. cbn [dict_get].
  simpl in Hentry.
  assert (∀ A (table : list (string * A)),
            ∃ found, Observable.table_get table
                       match assoc "verdict" kv with Some v => v | None => VNone end
                     = Ok found) as Htable.
  { intros A table. destruct (assoc "verdict" kv) as [[]|]; try done; by eexists. }
  assert (match assoc "verdict" kv with
          | Some v => Ok v
          | None => Ok VNone
          end = Ok match assoc "verdict" kv with Some v => v | None => VNone end) as ->.
  { by destruct (assoc "verdict" kv). }
  rewrite !bind_lift.
  destruct (Htable Z [("KNOWN", 1); ("UNKNOWN", 5); ("MALICIOUS", 2);
                      ("REMEDIATED", 2)]%string) as [code ->].
  destruct (Htable string [("KNOWN", "Clean"); ("UNKNOWN", "Unknown");
                           ("MALICIOUS", "Malicious");
                           ("REMEDIATED", "Malicious")]%string) as [name ->].
  cbn [mbind outcome_bind]. rewrite !bind_lift. cbv beta iota.
  rewrite (bind_Ok _ _ _ _ _ (uuid4_run w)). cbv beta.
  destruct (get event ".id" VNone); [|done].
  rewrite !bind_lift. cbn [dict_get].
  destruct (assoc "threatName" kv); rewrite ?bind_lift; unfold mret, M_ret; eauto.
Qed.

(** The comprehension over the verdict records: one judgement per entry,
    each with the next identifier. *)
Lemma judgements_Ok_inv self observable event entries w js w' :
  mapM (judgement self observable event) entries w = (Ok js, w') →
  w' = after_draws (length entries) w ∧
  ∃ kvs, entries = VDict <$> kvs ∧
    js = imap (λ k kv, judgement_of self observable (resolved event ".id") kv
                         (tid (drawn w + k))) kvs.
Proof.
  revert w js. induction entries as [|entry entries IH]; intros w js.
  { simpl. unfold mret, M_ret. intros [= <- <-]. rewrite after_draws_0.
    split; [done|]. by exists []. }
  rewrite mapM_cons_run.
  destruct (judgement _ _ _ entry w) as [[j|e] w1] eqn:Hj; [|done].
  destruct (mapM (judgement self observable event) entries w1)
    as [[js'|e] w2] eqn:Hjs; [|done].
  intros [= <- <-].
  apply judgement_Ok_inv in Hj as (-> & kv & external_id & -> & Hid & ->).
  apply IH in Hjs as (-> & kvs & -> & ->).
  rewrite after_draws_add. split; [done|].
  exists (kv :: kvs). split; [done|].
  rewrite imap_cons. f_equal.
  - by rewrite (resolved_Ok _ _ _ Hid), Nat.add_0_r.
  - apply imap_ext. intros k kv' _. simpl. do 2 f_equal. lia.
Qed.

Lemma judgements_return self observable event entries w :
  is_Ok (get event ".id" VNone) = true →
  forallb verdict_record entries = true →
  ∃ js, mapM (judgement self observable event) entries w =
        (Ok js, after_draws (length entries) w).
Proof.
  intros Hid. revert w. induction entries as [|entry entries IH]; intros w Hentries.
  { exists []. simpl. unfold mret, M_ret. by rewrite after_draws_0. }
  simpl in Hentries. apply andb_prop in Hentries as [Hentry Hentries].
  destruct (judgement_returns self observable event entry w Hid Hentry) as [j Hj].
  destruct (IH (after_draws 1 w) Hentries) as [js Hjs].
  exists (j :: js). by rewrite mapM_cons_run, Hj, Hjs, after_draws_add.
Qed.

Lemma indicator_Ok_inv event w i w' :
  indicator event w = (Ok i, w') →
  w' = after_draws 1 w ∧ i = indicator_of (resolved event ".id") (tid (drawn w)).
Proof.
  unfold Observable.indicator. intros H.
  rewrite (bind_Ok _ _ _ _ _ (uuid4_run w)) in H. cbv beta in H.
  rewrite bind_lift in H.
  destruct (get event ".id" VNone) as [external_id|] eqn:Hid; [|done].
  unfold mret, M_ret in H. injection H as <- <-.
  by rewrite (resolved_Ok _ _ _ Hid).
Qed.

Lemma indicator_returns event w :
  is_Ok (get event ".id" VNone) = true →
  ∃ i, indicator event w = (Ok i, after_draws 1 w).
Proof.
  intros Hid. unfold Observable.indicator.
  rewrite (bind_Ok _ _ _ _ _ (uuid4_run w)). cbv beta. rewrite bind_lift.
  destruct (get event ".id" VNone); [|done]. unfold mret, M_ret. eauto.
Qed.

(** [map] returns only the result assembled this way, after [3 + 3 * n]
    draws for [n] verdict records. *)
Lemma map_Ok_inv self observable event active w r w' :
  map self observable event active w = (Ok r, w') →
  ∃ s kvs,
    sighting self observable event active w = (Ok s, after_draws 1 w) ∧
    verdict_entries event = Ok (VDict <$> kvs) ∧
    r = mapped_of uuid4_str self observable event s kvs (drawn w) ∧
    w' = after_draws (3 + 3 * length kvs) w.
Proof.
  unfold Observable.map. intros H.
  apply bind_Ok_inv in H as (s & w1 & Hs & H).
  pose proof (sighting_Ok_inv _ _ _ _ _ _ _ Hs) as [-> _].
  rewrite bind_lift in H. fold (verdict_entries event) in H.
  destruct (verdict_entries event) as [entries|] eqn:Hentries; [|done].
  apply bind_Ok_inv in H as (js & w2 & Hjs & H).
  apply judgements_Ok_inv in Hjs as (-> & kvs & -> & ->).
  apply bind_Ok_inv in H as (i & w3 & Hi & H).
  apply indicator_Ok_inv in Hi as (-> & ->).
  rewrite !after_draws_add in H.
  rewrite !bind_Ok with (1 := relationship_run _ _ _ _) in H.
  unfold mret, M_ret in H. injection H as <- <-.
  exists s, kvs. split; [done|]. split; [done|].
  rewrite !after_draws_add. split.
  - unfold mapped_of. rewrite !length_fmap, !length_imap.
    cbn [drawn after_draws length].
    replace (drawn w + S (length kvs))%nat with (drawn w + 1 + length kvs)%nat by lia.
    replace (drawn w + S (length kvs + 1))%nat with (drawn w + 2 + length kvs)%nat by lia.
    replace (drawn w + 2 + length kvs + length kvs * 1)%nat
      with (drawn w + 2 + 2 * length kvs)%nat by lia.
    replace (drawn w + 2 + 2 * length kvs + (length kvs + 0))%nat
      with (drawn w + 2 + 3 * length kvs)%nat by lia.
    reflexivity.
  - rewrite !length_fmap, !length_imap. unfold after_draws. simpl. f_equal. lia.
Qed.

(** *** Events on which [map] returns *)

Lemma outcome_mapM_Ok {A B} (f : A → outcome B) l :
  Forall (λ x, is_Ok (f x) = true) l → ∃ ys, mapM f l = Ok ys.
Proof.
  induction 1 as [|x l Hx _ [ys IH]]; [by exists []|].
  destruct (f x) as [y|] eqn:Hy; [|done].
  exists (y :: ys). cbn [mapM]. rewrite Hy. cbn [mbind outcome_bind]. by rewrite IH.
Qed.

(** A truthy value looked up with [.get] is bound, so indexing finds it. *)
Lemma getitem_after_get kv key :
  truthy (match assoc key kv with Some v => v | None => VNone end) = true →
  getitem (VDict kv) key = Ok (match assoc key kv with Some v => v | None => VNone end).
Proof. simpl. by destruct (assoc key kv). Qed.

Lemma dict_get_record kv key default :
  dict_get (VDict kv) key default =
  Ok (match assoc key kv with Some v => v | None => default end).
Proof. simpl. by destruct (assoc key kv). Qed.

Lemma interface_targets_record kv : is_Ok (interface_targets (VDict kv)) = true.
Proof.
  unfold interface_targets. rewrite !dict_get_record. cbn [mbind outcome_bind].
  destruct (truthy (match assoc "ipAddress" kv with Some v => v | None => VNone end))
    eqn:Hip;
  [rewrite (getitem_after_get _ _ Hip)|];
  (destruct (truthy (match assoc "macAddress" kv with Some v => v | None => VNone end))
     eqn:Hmac; [rewrite (getitem_after_get _ _ Hmac)|]); done.
Qed.

(** The first half of [targets], on an event with an asset record. *)
Lemma targets_with_asset d asset :
  assoc "asset" d = Some (VDict asset) →
  targets (VDict d) =
  (interfaces ← iterate (py_or (match assoc "interfaces" asset with
                                | Some v => v
                                | None => VNone
                                end) (VList []));
   found ← mapM interface_targets interfaces;
   Ok (hostname_entry asset ++ concat found)).
Proof.
  intros Hasset. unfold targets, hostname_entry. cbn [getitem]. rewrite Hasset.
  cbn [mbind outcome_bind]. rewrite !dict_get_record. cbn [mbind outcome_bind].
  destruct (assoc "netBiosName" asset) as [name|] eqn:Hname; cbn [truthy]; [|done].
  destruct (truthy name) eqn:Htruthy; [|done].
  cbn [getitem]. rewrite Hname. done.
Qed.

(** Without an asset record the first step of [targets] raises. *)
Lemma targets_without_asset d :
  assoc "asset" d = None → targets (VDict d) = Raise (KeyError "asset").
Proof. intros Hasset. unfold targets. cbn [getitem]. by rewrite Hasset. Qed.

(** An absent, null or empty interface list: nothing beyond the hostname. *)
Lemma targets_without_interfaces d asset :
  assoc "asset" d = Some (VDict asset) →
  truthy (match assoc "interfaces" asset with Some v => v | None => VNone end) = false →
  targets (VDict d) = Ok (hostname_entry asset).
Proof.
  intros Hasset Hnone. rewrite (targets_with_asset _ _ Hasset).
  unfold py_or. rewrite Hnone. simpl. by rewrite app_nil_r.
Qed.

Lemma iterate_list_field acceptable field :
  list_field acceptable field = true →
  ∃ items, iterate (py_or (match field with Some v => v | None => VNone end) (VList []))
           = Ok items ∧ forallb acceptable items = true.
Proof.
  unfold list_field, py_or. destruct field as [v|]; [|by exists []].
  destruct (truthy v); [|by exists []].
  destruct v; try done. intros Hl. by eexists.
Qed.

Lemma targets_well_shaped d asset :
  assoc "asset" d = Some (VDict asset) →
  list_field is_record (assoc "interfaces" asset) = true →
  is_Ok (targets (VDict d)) = true.
Proof.
  intros Hasset Hinterfaces. rewrite (targets_with_asset _ _ Hasset).
  destruct (iterate_list_field _ _ Hinterfaces) as (interfaces & -> & Hrecords).
  cbn [mbind outcome_bind].
  destruct (outcome_mapM_Ok interface_targets interfaces) as [found ->]; [|done].
  apply Forall_forall. intros interface Hin%list_elem_of_In.
  rewrite forallb_forall in Hrecords. specialize (Hrecords interface Hin).
  destruct interface; try done. apply interface_targets_record.
Qed.

(** On a well-shaped event every lookup of [map] returns. *)
Lemma well_shaped_lookups event :
  well_shaped event = true →
  is_Ok (get event ".id" VNone) = true ∧
  is_Ok (get event ".dateTime" VNone) = true ∧
  is_Ok (relations event) = true ∧
  is_Ok (targets event) = true ∧
  is_Ok (get event ".asset.fullOSName" VNone) = true ∧
  ∃ entries, verdict_entries event = Ok entries ∧ forallb verdict_record entries = true.
Proof.
  destruct event as [| | | | | |d]; try done. simpl.
  intros [[[[Hfile Hprocess]%andb_prop Hnetwork]%andb_prop Hasset]%andb_prop
            Hverdicts]%andb_prop.
  destruct (assoc "asset" d) as [[| | | | | |asset]|] eqn:Hd; try done.
  split. { rewrite (get_path _ ".id" ["id"] _ eq_refl), get_parts_dict.
           by destruct (assoc "id" d). }
  split. { rewrite (get_path _ ".dateTime" ["dateTime"] _ eq_refl), get_parts_dict.
           by destruct (assoc "dateTime" d). }
  split. { unfold relations. by rewrite mapped_resolving; [|apply rules_resolve_on_records]. }
  split. { by apply (targets_well_shaped d asset). }
  split. { rewrite (get_path _ ".asset.fullOSName" ["asset"; "fullOSName"] _ eq_refl),
             get_parts_dict, Hd, get_parts_dict. by destruct (assoc "fullOSName" asset). }
  unfold verdict_entries.
  rewrite (get_path _ ".indicator2" ["indicator2"] _ eq_refl), get_parts_dict.
  destruct (iterate_list_field _ _ Hverdicts) as (entries & Hentries & Hrecords).
  exists entries. split; [|done].
  by destruct (assoc "indicator2" d).
Qed.

Lemma map_returns self observable event active w :
  well_shaped event = true →
  ∃ r w', map self observable event active w = (Ok r, w').
Proof.
  intros (Hid & Htime & Hrelations & Htargets & Hos & entries & Hentries & Hrecords)
    %well_shaped_lookups.
  destruct (sighting_returns self observable event active w Hid Htime Hrelations
              Htargets Hos) as [s Hs].
  destruct (judgements_return self observable event entries (after_draws 1 w) Hid
              Hrecords) as [js Hjs].
  destruct (indicator_returns event (after_draws (length entries) (after_draws 1 w)) Hid)
    as [i Hi].
  unfold Observable.map.
  rewrite (bind_Ok _ _ _ _ _ Hs), bind_lift. fold (verdict_entries event).
  rewrite Hentries, (bind_Ok _ _ _ _ _ Hjs), (bind_Ok _ _ _ _ _ Hi).
  rewrite !bind_Ok with (1 := relationship_run _ _ _ _).
  unfold mret, M_ret. eauto.
Qed.

(** *** Edges and identifiers of a result *)

Lemma link_all_edges first type_ pairs :
  edge <$> link_all uuid4_str first type_ pairs =
  (λ p, (entity_id p.1, type_, entity_id p.2)) <$> pairs.
Proof.
  unfold link_all. rewrite fmap_imap, <-imap_const. by apply imap_ext.
Qed.

Lemma link_all_ids first type_ pairs :
  Relationship.id <$> link_all uuid4_str first type_ pairs =
  tid <$> seq first (length pairs).
Proof.
  unfold link_all. rewrite fmap_imap, <-(imap_seq pairs tid first). by apply imap_ext.
Qed.

Lemma link_all_length first type_ pairs :
  length (link_all uuid4_str first type_ pairs) = length pairs.
Proof. apply length_imap. Qed.

Lemma judgements_ids self observable external_id first kvs :
  Judgement.id <$> imap (λ k kv, judgement_of self observable external_id kv
                                   (tid (first + k))) kvs =
  tid <$> seq first (length kvs).
Proof. rewrite fmap_imap, <-(imap_seq kvs tid first). by apply imap_ext. Qed.

(** The edges of an assembled result: judgement to indicator, sighting to
    judgement, sighting to indicator. *)
Lemma mapped_of_edges self observable event s kvs first :
  let r := mapped_of uuid4_str self observable event s kvs first in
  ∃ i, Mapped.indicators r = [i] ∧
    edge <$> Mapped.relationships r =
      ((λ j, (Judgement.id j, "based-on", Indicator.id i)) <$> Mapped.judgements r) ++
      ((λ j, (Sighting.id s, "based-on", Judgement.id j)) <$> Mapped.judgements r) ++
      [(Sighting.id s, "sighting-of", Indicator.id i)].
Proof.
  intros r. eexists. split; [reflexivity|].
  unfold r, mapped_of. cbn [Mapped.relationships Mapped.judgements].
  rewrite !fmap_app, !link_all_edges.
  f_equal; [|f_equal].
  - induction (imap _ kvs) as [|j js IH]; [done|]. simpl. f_equal. apply IH.
  - cbn [list_prod]. rewrite app_nil_r.
    induction (imap _ kvs) as [|j js IH]; [done|]. simpl. f_equal. apply IH.
Qed.

Lemma documents_eq r :
  documents r =
  (ESighting <$> Mapped.sightings r) ++ (EJudgement <$> Mapped.judgements r) ++
  (EIndicator <$> Mapped.indicators r) ++ (ERelationship <$> Mapped.relationships r).
Proof.
  unfold documents, Mapped.items.
  cbn [fmap list_fmap snd mbind list_bind id]. by rewrite app_nil_r.
Qed.

(** The identifiers of an assembled result are the draws from [first] on,
    one after the other in the order of the documents. *)
Lemma mapped_of_ids self observable event s kvs first :
  Sighting.id s = tid first →
  let r := mapped_of uuid4_str self observable event s kvs first in
  length (documents r) = (3 + 3 * length kvs)%nat ∧
  entity_id <$> documents r = tid <$> seq first (length (documents r)).
Proof.
  intros Hs r.
  assert (entity_id <$> documents r =
          [tid first] ++ (tid <$> seq (first + 1) (length kvs)) ++
          [tid (first + 1 + length kvs)] ++
          (tid <$> seq (first + 2 + length kvs) (length kvs)) ++
          (tid <$> seq (first + 2 + 2 * length kvs) (length kvs)) ++
          (tid <$> seq (first + 2 + 3 * length kvs) 1)) as Hids.
  { rewrite documents_eq. unfold r, mapped_of.
    cbn [Mapped.sightings Mapped.judgements Mapped.indicators Mapped.relationships].
    rewrite !fmap_app, <-!list_fmap_compose.
    change (entity_id ∘ EJudgement) with Judgement.id.
    change (entity_id ∘ ERelationship) with Relationship.id.
    rewrite judgements_ids, !link_all_ids, !length_prod, !length_fmap, !length_imap.
    cbn [length]. rewrite Nat.mul_1_r, Nat.mul_1_l.
    cbn [fmap list_fmap compose entity_id Indicator.id indicator_of]. by rewrite Hs. }
  assert (length (documents r) = (3 + 3 * length kvs)%nat) as Hlen.
  { rewrite <-(length_fmap entity_id), Hids.
    rewrite !length_app, !length_fmap, !length_seq. simpl. lia. }
  split; [done|]. rewrite Hids, Hlen.
  replace (3 + 3 * length kvs)%nat
    with (1 + (length kvs + (1 + (length kvs + (length kvs + 1)))))%nat by lia.
  rewrite !seq_app, !fmap_app.
  replace (first + 1 + length kvs + 1)%nat with (first + 2 + length kvs)%nat by lia.
  replace (first + 2 + length kvs + length kvs)%nat
    with (first + 2 + 2 * length kvs)%nat by lia.
  replace (first + 2 + 2 * length kvs + length kvs)%nat
    with (first + 2 + 3 * length kvs)%nat by lia.
  reflexivity.
Qed.

Lemma mapped_of_provenance self observable event s kvs first :
  Sighting.schema_version s = "1.0.16" → Sighting.source s = "Qualys IOC" →
  Forall (λ doc, entity_schema_version doc = "1.0.16" ∧ entity_source doc = "Qualys IOC")
         (documents (mapped_of uuid4_str self observable event s kvs first)).
Proof.
  intros Hversion Hsource. rewrite documents_eq. unfold mapped_of.
  cbn [Mapped.sightings Mapped.judgements Mapped.indicators Mapped.relationships].
  rewrite !Forall_app, !Forall_fmap, !Forall_app. split; [by apply Forall_singleton|].
  split.
  { apply Forall_forall. by intros j (k & kv & -> & _)%elem_of_lookup_imap. }
  split; [by apply Forall_singleton|].
  unfold link_all. repeat split; apply Forall_forall;
    by intros rel (k & p & -> & _)%elem_of_lookup_imap.
Qed.

(** *** The claims about [map] *)

(** C1: the relationships of a result are, in this order, one "based-on"
    edge from each judgement to the indicator, one "based-on" edge from the
    sighting to each judgement and one "sighting-of" edge from the sighting
    to the indicator, [2 * J + 1] documents for [J] judgements, whose
    references are the identifiers of the sighting, the judgements and the
    indicator of the same result; and [map] returns such a result on every
    well-shaped event. *)
Theorem map_relationships self observable event active w :
  (∀ r w', map self observable event active w = (Ok r, w') →
     ∃ s i, Mapped.sightings r = [s] ∧ Mapped.indicators r = [i] ∧
       edge <$> Mapped.relationships r =
         ((λ j, (Judgement.id j, "based-on", Indicator.id i)) <$> Mapped.judgements r) ++
         ((λ j, (Sighting.id s, "based-on", Judgement.id j)) <$> Mapped.judgements r) ++
         [(Sighting.id s, "sighting-of", Indicator.id i)] ∧
       length (Mapped.relationships r) = (2 * length (Mapped.judgements r) + 1)%nat) ∧
  (well_shaped event = true →
     ∃ r w', map self observable event active w = (Ok r, w')).
Proof.
  split; [|apply map_returns].
  intros r w' (s & kvs & _ & _ & -> & _)%map_Ok_inv.
  destruct (mapped_of_edges self observable event s kvs (drawn w)) as (i & Hi & Hedges).
  exists s, i. split; [done|]. split; [done|]. split; [done|].
  rewrite <-(length_fmap edge), Hedges, !length_app, !length_fmap. simpl. lia.
Qed.

(** C2: a result holds one judgement per entry of the event's verdict list,
    in order, and none when the list is absent, null or empty; a judgement's
    disposition and disposition name are those the specification gives the
    entry's verdict (the default 5, "Unknown" for an unknown or missing
    one), its priority is 90 and its reason the entry's threat name or the
    empty string; and [map] returns such a result on every well-shaped
    event. *)
Theorem map_judgements self observable event active w :
  (∀ r w', map self observable event active w = (Ok r, w') →
     ∃ kvs, verdict_entries event = Ok (VDict <$> kvs) ∧
       Forall2 (λ kv j,
                  (Judgement.disposition j, Judgement.disposition_name j) =
                    claimed_disposition (assoc "verdict" kv) ∧
                  Judgement.priority j = 90 ∧
                  Judgement.reason j =
                    match assoc "threatName" kv with
                    | Some name => name
                    | None => VStr ""
                    end)
               kvs (Mapped.judgements r)) ∧
  (∀ entries, get event ".indicator2" VNone = Ok (VList entries) →
              verdict_entries event = Ok entries) ∧
  (get event ".indicator2" VNone = Ok VNone → verdict_entries event = Ok []) ∧
  (claimed_disposition None = (5, "Unknown") ∧
   claimed_disposition (Some (VStr "KNOWN")) = (1, "Clean") ∧
   claimed_disposition (Some (VStr "UNKNOWN")) = (5, "Unknown") ∧
   claimed_disposition (Some (VStr "MALICIOUS")) = (2, "Malicious") ∧
   claimed_disposition (Some (VStr "REMEDIATED")) = (2, "Malicious") ∧
   ∀ verdict, verdict ∉ [VStr "KNOWN"; VStr "UNKNOWN"; VStr "MALICIOUS";
                         VStr "REMEDIATED"] →
              claimed_disposition (Some verdict) = (5, "Unknown")) ∧
  (well_shaped event = true →
     ∃ r w', map self observable event active w = (Ok r, w')).
Proof.
  split.
  { intros r w' (s & kvs & _ & Hentries & -> & _)%map_Ok_inv.
    exists kvs. split; [done|]. unfold mapped_of. cbn [Mapped.judgements].
    apply Forall2_same_length_lookup. rewrite length_imap. split; [done|].
    intros k kv j Hkv Hj. rewrite list_lookup_imap, Hkv in Hj.
    injection Hj as <-. simpl. by destruct (claimed_disposition _). }
  split.
  { intros entries Hget. unfold verdict_entries. rewrite Hget. simpl.
    unfold py_or. by destruct entries. }
  split.
  { intros Hget. unfold verdict_entries. by rewrite Hget. }
  split; [|apply map_returns].
  repeat (split; [done|]).
  intros verdict Hother. destruct verdict as [| | | |s| |]; try done.
  unfold claimed_disposition.
  repeat (case_decide; [subst; exfalso; apply Hother; set_solver|]). done.
Qed.

(** C10: the documents of a result carry, in their order, the identifiers
    ["transient:" ++ uuid] of as many consecutive draws of [uuid4], one draw
    per document; where those draws are pairwise distinct so are the
    identifiers; every document has schema version "1.0.16" and source
    "Qualys IOC"; and [map] returns such a result on every well-shaped
    event. *)
Theorem map_identifiers self observable event active w :
  (∀ r w', map self observable event active w = (Ok r, w') →
     entity_id <$> documents r =
       (λ n, "transient:" +:+ uuid4_str n) <$> seq (drawn w) (length (documents r)) ∧
     drawn w' = (drawn w + length (documents r))%nat ∧
     (NoDup (uuid4_str <$> seq (drawn w) (length (documents r))) →
      NoDup (entity_id <$> documents r)) ∧
     Forall (λ doc, entity_schema_version doc = "1.0.16" ∧
                    entity_source doc = "Qualys IOC") (documents r)) ∧
  (well_shaped event = true →
     ∃ r w', map self observable event active w = (Ok r, w')).
Proof.
  split; [|apply map_returns].
  intros r w' (s & kvs & Hs & _ & -> & ->)%map_Ok_inv.
  apply sighting_Ok_inv in Hs
    as (_ & external_id & start_time & relations_ & targets_ & os & _ & _ & _ & _ & _ & Hs).
  assert (Sighting.id s = tid (drawn w)) as Hid by by rewrite Hs.
  destruct (mapped_of_ids self observable event s kvs (drawn w) Hid) as [Hlen Hids].
  split; [done|]. split.
  { rewrite Hlen. done. }
  split.
  { intros Hdistinct. rewrite Hids.
    change tid with (String.append "transient:" ∘ uuid4_str).
    rewrite list_fmap_compose. by apply (NoDup_fmap_2 _). }
  apply mapped_of_provenance; by rewrite Hs.
Qed.

(** C6: an event without the asset record, whatever else it holds, makes
    [map] raise [KeyError]: the target extractor indexes [event['asset']]
    where the other lookups go through [get]. *)
Theorem map_without_asset_raises self observable d active w :
  assoc "asset" d = None →
  record_or_absent d "file" = true →
  record_or_absent d "process" = true →
  record_or_absent d "network" = true →
  map self observable (VDict d) active w = (Raise (KeyError "asset"), after_draws 1 w).
Proof.
  intros Hasset Hfile Hprocess Hnetwork.
  unfold Observable.map, Observable.sighting.
  apply bind_Raise. rewrite (bind_Ok _ _ _ _ _ (uuid4_run w)). cbv beta.
  rewrite (get_path _ ".id" ["id"] _ eq_refl), get_parts_dict.
  rewrite (get_path _ ".dateTime" ["dateTime"] _ eq_refl), get_parts_dict.
  assert (∀ key, ∃ v, match assoc key d with
                      | Some v => get_parts v [] VNone
                      | None => Ok VNone
                      end = Ok v) as Hget.
  { intros key. destruct (assoc key d); by eexists. }
  destruct (Hget "id") as [external_id ->].
  destruct (Hget "dateTime") as [start_time ->].
  rewrite !bind_lift.
  unfold relations.
  rewrite mapped_resolving by by apply rules_resolve_on_records.
  rewrite bind_lift. cbv beta iota.
  by rewrite (targets_without_asset _ Hasset).
Qed.

(** ** The orchestrator *)

(** *** One fetch *)

Lemma requests_get_run url fresh w :
  Observable.requests_get transport url fresh w =
  (transport (length (sent w)) (Request url fresh),
   World (drawn w) (sent w ++ [Request url fresh])).
Proof. reflexivity. Qed.

Lemma settled_run (r : response) w :
  (lift (raise_for_status r) ≫= λ _, lift (json r)) w = (settled r, w).
Proof.
  rewrite bind_lift. unfold raise_for_status, settled, lift.
  destruct (Z.leb_spec 400 (status_code r)), (Z.ltb_spec (status_code r) 600);
    simpl; case_decide; (done || lia).
Qed.

(** A fetch whose first response is not a 401 sends one request, and that
    response settles it. *)
Lemma fetch_first self api observable active_ w r :
  let url := Observable.events_url self api observable active_ in
  transport (length (sent w)) (Request url false) = Ok r →
  status_code r ≠ 401 →
  fetch self api observable active_ w =
  (settled r, World (drawn w) (sent w ++ phase_requests url false)).
Proof.
  intros url Hfirst Hstatus. unfold Observable.fetch. fold url.
  rewrite (bind_Ok _ _ _ r _ (eq_trans (requests_get_run url false w)
                                (f_equal (λ o, (o, _)) Hfirst))).
  destruct (Z.eqb_spec (status_code r) 401) as [|_]; [done|].
  unfold mbind at 1, M_bind at 1, mret, M_ret. apply settled_run.
Qed.

(** A fetch whose first response is a 401 sends exactly one more request,
    with fresh credentials, and the response to that one settles it. *)
Lemma fetch_retry self api observable active_ w r r' :
  let url := Observable.events_url self api observable active_ in
  transport (length (sent w)) (Request url false) = Ok r →
  status_code r = 401 →
  transport (S (length (sent w))) (Request url true) = Ok r' →
  fetch self api observable active_ w =
  (settled r', World (drawn w) (sent w ++ phase_requests url true)).
Proof.
  intros url Hfirst Hstatus Hsecond. unfold Observable.fetch. fold url.
  rewrite (bind_Ok _ _ _ r _ (eq_trans (requests_get_run url false w)
                                (f_equal (λ o, (o, _)) Hfirst))).
  rewrite Hstatus. cbn [Z.eqb Pos.eqb].
  unfold mbind at 1, M_bind at 1. rewrite requests_get_run. cbn [sent drawn].
  rewrite length_app. cbn [length]. rewrite Nat.add_1_r, Hsecond.
  rewrite settled_run. by rewrite <-app_assoc.
Qed.

(** A failure of the transport ends the fetch where it happens. *)
Lemma fetch_first_fails self api observable active_ w e :
  let url := Observable.events_url self api observable active_ in
  transport (length (sent w)) (Request url false) = Raise e →
  fetch self api observable active_ w =
  (Raise e, World (drawn w) (sent w ++ phase_requests url false)).
Proof.
  intros url Hfirst. unfold Observable.fetch. fold url.
  apply bind_Raise. by rewrite requests_get_run, Hfirst.
Qed.

Lemma fetch_retry_fails self api observable active_ w r e :
  let url := Observable.events_url self api observable active_ in
  transport (length (sent w)) (Request url false) = Ok r →
  status_code r = 401 →
  transport (S (length (sent w))) (Request url true) = Raise e →
  fetch self api observable active_ w =
  (Raise e, World (drawn w) (sent w ++ phase_requests url true)).
Proof.
  intros url Hfirst Hstatus Hsecond. unfold Observable.fetch. fold url.
  rewrite (bind_Ok _ _ _ r _ (eq_trans (requests_get_run url false w)
                                (f_equal (λ o, (o, _)) Hfirst))).
  rewrite Hstatus. cbn [Z.eqb Pos.eqb].
  apply bind_Raise. rewrite requests_get_run. cbn [sent drawn].
  rewrite length_app. cbn [length]. by rewrite Nat.add_1_r, Hsecond, <-app_assoc.
Qed.

(** Whatever its outcome, a fetch draws no identifier and sends the one or
    two requests of its phase. *)
Lemma fetch_requests self api observable active_ w o w' :
  fetch self api observable active_ w = (o, w') →
  ∃ retried,
    w' = World (drawn w)
               (sent w ++ phase_requests (Observable.events_url self api observable active_)
                                         retried).
Proof.
  set (url := Observable.events_url self api observable active_).
  destruct (transport (length (sent w)) (Request url false)) as [r|e] eqn:Hfirst.
  - destruct (decide (status_code r = 401)) as [Hstatus|Hstatus].
    + destruct (transport (S (length (sent w))) (Request url true)) as [r'|e] eqn:Hsecond.
      * rewrite (fetch_retry _ _ _ _ _ _ _ Hfirst Hstatus Hsecond).
        intros [= _ <-]. by exists true.
      * rewrite (fetch_retry_fails _ _ _ _ _ _ _ Hfirst Hstatus Hsecond).
        intros [= _ <-]. by exists true.
    + rewrite (fetch_first _ _ _ _ _ _ Hfirst Hstatus). intros [= _ <-]. by exists false.
  - rewrite (fetch_first_fails _ _ _ _ _ _ Hfirst). intros [= _ <-]. by exists false.
Qed.

(** *** Merging the results *)

Lemma merge_items observed r :
  Observable.merge observed (Mapped.items r) =
  let o1 := <["sightings" := docs_at observed "sightings" ++
                (ESighting <$> Mapped.sightings r)]> observed in
  let o2 := <["judgements" := docs_at o1 "judgements" ++
                (EJudgement <$> Mapped.judgements r)]> o1 in
  let o3 := <["indicators" := docs_at o2 "indicators" ++
                (EIndicator <$> Mapped.indicators r)]> o2 in
  <["relationships" := docs_at o3 "relationships" ++
      (ERelationship <$> Mapped.relationships r)]> o3.
Proof. reflexivity. Qed.

(** After a merge each key holds what it held, followed by the result's
    documents for it. *)
Lemma merge_docs observed r key :
  docs_at (Observable.merge observed (Mapped.items r)) key =
  docs_at observed key ++ docs_of r key.
Proof.
  rewrite merge_items. cbv zeta. unfold docs_at, docs_of, Mapped.items.
  rewrite !assoc_cons. cbn [assoc].
  destruct (String.eqb_spec "sightings" key) as [<-|Hs].
  { by rewrite !lookup_insert_ne, lookup_insert_eq by done. }
  destruct (String.eqb_spec "judgements" key) as [<-|Hj].
  { by rewrite !lookup_insert_ne, lookup_insert_eq, !lookup_insert_ne by done. }
  destruct (String.eqb_spec "indicators" key) as [<-|Hi].
  { by rewrite !lookup_insert_ne, lookup_insert_eq, !lookup_insert_ne by done. }
  destruct (String.eqb_spec "relationships" key) as [<-|Hr].
  { by rewrite lookup_insert_eq, !lookup_insert_ne by done. }
  by rewrite !lookup_insert_ne, app_nil_r by done.
Qed.

(** A merge binds the four keys, whatever was bound before. *)
Lemma merge_dom observed r :
  dom (Observable.merge observed (Mapped.items r)) = dom observed ∪ four_keys.
Proof.
  rewrite merge_items. cbv zeta. rewrite !dom_insert_L. unfold four_keys. set_solver.
Qed.

Lemma merge_all_docs observed rs key :
  docs_at (merge_all observed rs) key = docs_at observed key ++ (rs ≫= λ r, docs_of r key).
Proof.
  revert observed. induction rs as [|r rs IH]; intros observed.
  { simpl. by rewrite app_nil_r. }
  cbn [merge_all foldl]. fold (merge_all (Observable.merge observed (Mapped.items r)) rs).
  rewrite IH, merge_docs, <-app_assoc. done.
Qed.

Lemma merge_all_dom observed rs :
  dom (merge_all observed rs) = if rs is [] then dom observed else dom observed ∪ four_keys.
Proof.
  revert observed. induction rs as [|r rs IH]; intros observed; [done|].
  cbn [merge_all foldl]. fold (merge_all (Observable.merge observed (Mapped.items r)) rs).
  rewrite IH, merge_dom. destruct rs; set_solver.
Qed.

(** *** The loop over the events of a phase *)

(** The loop maps the events in order and merges what it gets. *)
Lemma map_loop_run self observable active observed events w :
  for_each (λ observed event,
              mapped_ ← map self observable event active;
              mret (Observable.merge observed (Mapped.items mapped_)))
           observed events w =
  match mapM (λ event, map self observable event active) events w with
  | (Ok rs, w') => (Ok (merge_all observed rs), w')
  | (Raise e, w') => (Raise e, w')
  end.
Proof.
  revert observed w. induction events as [|event events IH]; intros observed w; [done|].
  rewrite mapM_cons_run. cbn [for_each].
  unfold mbind at 1, M_bind at 1. unfold mbind at 1, M_bind at 1.
  destruct (map self observable event active w) as [[r|e] w1]; [|done].
  unfold mret at 1, M_ret at 1. rewrite IH.
  by destruct (mapM (λ event, map self observable event active) events w1)
    as [[rs|e] w2].
Qed.

(** The results of a phase: one per event, in order, each a sighting with
    the phase's flag in its data row; mapping sends no request. *)
Lemma map_all_Ok_inv self observable active events w rs w' :
  mapM (λ event, map self observable event active) events w = (Ok rs, w') →
  sent w' = sent w ∧
  Forall2 (λ event r, ∃ w1 w2, map self observable event active w1 = (Ok r, w2) ∧
                               ∃ s, Mapped.sightings r = [s] ∧
                                    Data.rows (Sighting.data s) = [[str_bool active]])
          events rs.
Proof.
  revert w rs. induction events as [|event events IH]; intros w rs.
  { simpl. unfold mret, M_ret. by intros [= <- <-]. }
  rewrite mapM_cons_run.
  destruct (map self observable event active w) as [[r|e] w1] eqn:Hr; [|done].
  destruct (mapM (λ event, map self observable event active) events w1)
    as [[rs'|e] w2] eqn:Hrs; [|done].
  intros [= <- <-]. apply IH in Hrs as [Hsent Hrs].
  pose proof Hr as (s & kvs & Hs & _ & -> & ->)%map_Ok_inv.
  split; [by rewrite Hsent|].
  constructor; [|done]. exists w, (after_draws (3 + 3 * length kvs) w).
  split; [done|]. exists s. split; [done|].
  apply sighting_Ok_inv in Hs as (_ & ? & ? & ? & ? & ? & _ & _ & _ & _ & _ & ->). done.
Qed.

(** One phase: the fetch, then the loop over the events of its body. *)
Lemma observe_phase_run self api observable observed active w :
  observe_phase self api observable observed active w =
  match fetch self api observable active w with
  | (Ok body, w1) =>
      match iterate body with
      | Ok events =>
          match mapM (λ event, map self observable event active) events w1 with
          | (Ok rs, w2) => (Ok (merge_all observed rs), w2)
          | (Raise e, w2) => (Raise e, w2)
          end
      | Raise e => (Raise e, w1)
      end
  | (Raise e, w1) => (Raise e, w1)
  end.
Proof.
  unfold Observable.observe_phase. unfold mbind at 1, M_bind at 1.
  destruct (fetch self api observable active w) as [[body|e] w1]; [|done].
  rewrite bind_lift. destruct (iterate body) as [events|e]; [|done].
  apply map_loop_run.
Qed.

Lemma observe_run self api observable w :
  observe self api observable w =
  match observe_phase self api observable ∅ true w with
  | (Ok observed, w') => observe_phase self api observable observed false w'
  | (Raise e, w') => (Raise e, w')
  end.
Proof.
  unfold Observable.observe. cbn [for_each]. unfold mbind at 1, M_bind at 1.
  destruct (observe_phase self api observable ∅ true w) as [[observed|e] w']; [|done].
  unfold mbind, M_bind, mret, M_ret.
  by destruct (observe_phase self api observable observed false w') as [[?|?] ?].
Qed.

(** *** The claims about [observe] *)

(** The results of the two phases, merged into the empty mapping. *)
Lemma observe_returns self api observable w body1 w1 events1 rs1 w2 body2 w3 events2
    rs2 w4 :
  fetch self api observable true w = (Ok body1, w1) →
  iterate body1 = Ok events1 →
  mapM (λ event, map self observable event true) events1 w1 = (Ok rs1, w2) →
  fetch self api observable false w2 = (Ok body2, w3) →
  iterate body2 = Ok events2 →
  mapM (λ event, map self observable event false) events2 w3 = (Ok rs2, w4) →
  observe self api observable w = (Ok (merge_all ∅ (rs1 ++ rs2)), w4).
Proof.
  intros Hbody1 Hevents1 Hrs1 Hbody2 Hevents2 Hrs2.
  rewrite observe_run, observe_phase_run, Hbody1, Hevents1, Hrs1.
  rewrite observe_phase_run, Hbody2, Hevents2, Hrs2.
  unfold merge_all. by rewrite foldl_app.
Qed.

(** C3: [observe] runs the active phase and then the inactive one: the
    requests it sends are those of a fetch of the active URL followed by
    those of a fetch of the inactive URL; the query of a URL, what follows
    [/ioc/events?], starts with the flag [state=true&] exactly when the
    phase is active and always ends with [filter=] and the observable's
    filter; every event of a phase is mapped, in the order of the response,
    with the phase's flag, which the data row of its sighting holds as
    "True" or "False"; and each key of the result holds the concatenation of
    the documents of all events, those of the active phase first. *)
Theorem observe_two_phases self api observable w body1 w1 events1 rs1 w2 body2 w3
    events2 rs2 w4 :
  fetch self api observable true w = (Ok body1, w1) →
  iterate body1 = Ok events1 →
  mapM (λ event, map self observable event true) events1 w1 = (Ok rs1, w2) →
  fetch self api observable false w2 = (Ok body2, w3) →
  iterate body2 = Ok events2 →
  mapM (λ event, map self observable event false) events2 w3 = (Ok rs2, w4) →
  ∃ observed retried1 retried2,
    observe self api observable w = (Ok observed, w4) ∧
    sent w4 = sent w ++
      phase_requests (Observable.events_url self api observable true) retried1 ++
      phase_requests (Observable.events_url self api observable false) retried2 ∧
    Observable.events_url self api observable true =
      api +:+ "/ioc/events?state=true&filter=" +:+ Observable.filter self observable ∧
    Observable.events_url self api observable false =
      api +:+ "/ioc/events?filter=" +:+ Observable.filter self observable ∧
    (∀ active_ : bool, ∃ query,
       Observable.events_url self api observable active_ =
         api +:+ "/ioc/events?" +:+ query ∧
       String.prefix "state=true&" query = active_ ∧
       query = (if active_ then "state=true&" else "") +:+ "filter=" +:+
               Observable.filter self observable) ∧
    Forall2 (λ event r, ∃ w1 w2, map self observable event true w1 = (Ok r, w2) ∧
               ∃ s, Mapped.sightings r = [s] ∧ Data.rows (Sighting.data s) = [["True"]])
            events1 rs1 ∧
    Forall2 (λ event r, ∃ w1 w2, map self observable event false w1 = (Ok r, w2) ∧
               ∃ s, Mapped.sightings r = [s] ∧ Data.rows (Sighting.data s) = [["False"]])
            events2 rs2 ∧
    docs_at observed "sightings" =
      ((rs1 ++ rs2) ≫= λ r, ESighting <$> Mapped.sightings r) ∧
    docs_at observed "judgements" =
      ((rs1 ++ rs2) ≫= λ r, EJudgement <$> Mapped.judgements r) ∧
    docs_at observed "indicators" =
      ((rs1 ++ rs2) ≫= λ r, EIndicator <$> Mapped.indicators r) ∧
    docs_at observed "relationships" =
      ((rs1 ++ rs2) ≫= λ r, ERelationship <$> Mapped.relationships r).
Proof.
  intros Hbody1 Hevents1 Hrs1 Hbody2 Hevents2 Hrs2.
  pose proof (observe_returns _ _ _ _ _ _ _ _ _ _ _ _ _ _
                Hbody1 Hevents1 Hrs1 Hbody2 Hevents2 Hrs2) as Hobserve.
  apply fetch_requests in Hbody1 as [retried1 ->].
  apply fetch_requests in Hbody2 as [retried2 ->].
  apply map_all_Ok_inv in Hrs1 as [Hsent1 Hrs1].
  apply map_all_Ok_inv in Hrs2 as [Hsent2 Hrs2].
  exists (merge_all ∅ (rs1 ++ rs2)), retried1, retried2.
  split; [done|]. split.
  { rewrite Hsent2. cbn [sent]. rewrite Hsent1. cbn [sent]. by rewrite app_assoc. }
  split; [done|]. split; [done|]. split.
  { intros [].
    - by exists ("state=true&filter=" +:+ Observable.filter self observable).
    - by exists ("filter=" +:+ Observable.filter self observable). }
  split; [done|]. split; [done|].
  by rewrite !merge_all_docs.
Qed.

(** C4: a first response with status 401 is answered by exactly one more
    request, with fresh credentials, whose response takes its place; any
    other first response stands.  The response that remains makes the fetch
    raise [HTTPError] when its status lies from 400 to 599, also when it is
    a second 401, and otherwise end as [response.json()] does, with the
    parsed body or with the decoding error that call raises; [observe] lets
    the failure of a fetch through as it is, sending nothing more. *)
Theorem fetch_retries_unauthorized_once self api observable active_ w :
  (∀ r r',
     transport (length (sent w))
               (Request (Observable.events_url self api observable active_) false) = Ok r →
     status_code r = 401 →
     transport (S (length (sent w)))
               (Request (Observable.events_url self api observable active_) true) = Ok r' →
     fetch self api observable active_ w =
     (settled r',
      World (drawn w)
            (sent w ++ [Request (Observable.events_url self api observable active_) false;
                        Request (Observable.events_url self api observable active_) true]))) ∧
  (∀ r,
     transport (length (sent w))
               (Request (Observable.events_url self api observable active_) false) = Ok r →
     status_code r ≠ 401 →
     fetch self api observable active_ w =
     (settled r,
      World (drawn w)
            (sent w ++ [Request (Observable.events_url self api observable active_) false]))) ∧
  (∀ r, 400 ≤ status_code r < 600 → settled r = Raise (HTTPError (status_code r))) ∧
  (∀ r, ¬ 400 ≤ status_code r < 600 → settled r = json r) ∧
  (∀ e w', fetch self api observable true w = (Raise e, w') →
           observe self api observable w = (Raise e, w')) ∧
  (∀ observed w1 e w',
     observe_phase self api observable ∅ true w = (Ok observed, w1) →
     fetch self api observable false w1 = (Raise e, w') →
     observe self api observable w = (Raise e, w')).
Proof.
  split; [intros r r'; apply fetch_retry|].
  split; [intros r; apply fetch_first|].
  split; [intros r Hstatus; unfold settled; by case_decide|].
  split; [intros r Hstatus; unfold settled; by case_decide|].
  split.
  - intros e w' Hfetch. by rewrite observe_run, observe_phase_run, Hfetch.
  - intros observed w1 e w' Hphase Hfetch.
    by rewrite observe_run, Hphase, observe_phase_run, Hfetch.
Qed.

(** C7: when both phases succeed and every event is mapped, [observe]
    returns a mapping whose keys are the four keys of a result as soon as
    one event was returned, each bound to a list, and the empty mapping, with
    no key at all, when neither phase returned an event. *)
Theorem observe_keys self api observable w body1 w1 events1 rs1 w2 body2 w3
    events2 rs2 w4 :
  fetch self api observable true w = (Ok body1, w1) →
  iterate body1 = Ok events1 →
  mapM (λ event, map self observable event true) events1 w1 = (Ok rs1, w2) →
  fetch self api observable false w2 = (Ok body2, w3) →
  iterate body2 = Ok events2 →
  mapM (λ event, map self observable event false) events2 w3 = (Ok rs2, w4) →
  ∃ observed,
    observe self api observable w = (Ok observed, w4) ∧
    (events1 ++ events2 ≠ [] → dom observed = four_keys) ∧
    (events1 ++ events2 = [] → observed = ∅).
Proof.
  intros Hbody1 Hevents1 Hrs1 Hbody2 Hevents2 Hrs2.
  exists (merge_all ∅ (rs1 ++ rs2)).
  split; [by eapply observe_returns|].
  apply map_all_Ok_inv in Hrs1 as [_ Hlen1%Forall2_length].
  apply map_all_Ok_inv in Hrs2 as [_ Hlen2%Forall2_length].
  split.
  - intros Hevents. rewrite merge_all_dom.
    destruct (rs1 ++ rs2) eqn:Hrs; [|set_solver].
    apply app_eq_nil in Hrs as [-> ->].
    destruct events1, events2; done.
  - intros [-> ->]%app_eq_nil. by destruct rs1, rs2.
Qed.

End WorldProperties.

(** * The claims on the sample data *)

(** Witness for C1, the sample event: two judgements, five relationships. *)
Lemma map_relationships_witness :
  ∃ r w',
    Observable.map counting_uuid MD5 "abc" sample_event true fresh_world = (Ok r, w') ∧
    length (Mapped.relationships r) = 5%nat.
Proof.
  eexists _, _. split; [vm_compute; reflexivity|].
  destruct (proj1 (map_relationships counting_uuid MD5 "abc" sample_event true fresh_world)
              _ _ ltac:(vm_compute; reflexivity))
    as (s & i & _ & _ & _ & Hlength).
  exact Hlength.
Defined.

(** Witness for C2, the sample event: it is well shaped, and its two verdict
    records give two judgements. *)
Lemma map_judgements_witness :
  well_shaped sample_event = true ∧
  ∃ r w',
    Observable.map counting_uuid MD5 "abc" sample_event true fresh_world = (Ok r, w') ∧
    length (Mapped.judgements r) = 2%nat.
Proof.
  split; [reflexivity|].
  eexists _, _. split; [vm_compute; reflexivity|].
  destruct (proj1 (map_judgements counting_uuid MD5 "abc" sample_event true fresh_world)
              _ _ ltac:(vm_compute; reflexivity))
    as (kvs & Hentries & Hjudged%Forall2_length).
  rewrite <-Hjudged.
  assert (length (VDict <$> kvs) = 2%nat) as Hlength.
  { apply (f_equal (λ o, match o with Ok l => length l | Raise _ => O end)) in Hentries.
    symmetry. exact Hentries. }
  by rewrite length_fmap in Hlength.
Defined.

(** Witness for C10, the sample event: nine documents, nine distinct
    identifiers. *)
Lemma map_identifiers_witness :
  ∃ r w',
    Observable.map counting_uuid MD5 "abc" sample_event true fresh_world = (Ok r, w') ∧
    NoDup (entity_id <$> documents r).
Proof.
  eexists _, _. split; [vm_compute; reflexivity|].
  destruct (proj1 (map_identifiers counting_uuid MD5 "abc" sample_event true fresh_world)
              _ _ ltac:(vm_compute; reflexivity))
    as (_ & _ & Hdistinct & _).
  apply Hdistinct. apply (bool_decide_unpack _). vm_compute. exact I.
Defined.

(** Witness for C6, the empty event. *)
Lemma map_without_asset_raises_witness :
  Observable.map counting_uuid MD5 "abc" (VDict []) true fresh_world =
  (Raise (KeyError "asset"), after_draws 1 fresh_world).
Proof.
  apply (map_without_asset_raises counting_uuid MD5 "abc" [] true fresh_world);
    reflexivity.
Defined.

(** Witness for C8: a tag of no kind, the tag of a kind, and the filter of
    a value that holds a double quote. *)
Lemma registry_and_filters_witness :
  Observable.of_ "url" = None ∧
  Observable.of_ (Observable.type Domain) = Some Domain ∧
  ∃ field, ∀ v,
    Observable.filter Mutex v =
    field +:+ ": " +:+ Observable.quote +:+ v +:+ Observable.quote.
Proof.
  destruct registry_and_filters as (Hkind & Hnone & _ & _ & Hfield).
  split; [apply Hnone; by intros []|]. split; [apply Hkind|].
  destruct (Hfield Mutex ltac:(done)) as (field & _ & Hfilter).
  by exists field.
Defined.

(** Witness for X21, the sample event: the one rule whose two paths
    resolve. *)
Lemma relations_by_rule_witness :
  relations sample_event =
  Ok [ {| Relation.origin := "Qualys IOC";
          Relation.related := Typed.Make "sha256" (VStr "h");
          Relation.relation := "File_Name_Of";
          Relation.source := Typed.Make "file_name" (VStr "f") |} ].
Proof.
  apply (proj1 (proj2 (relations_by_rule sample_event))). reflexivity.
Defined.

(** Witness for C3, a transport with one event in each phase. *)
Lemma observe_two_phases_witness :
  ∃ observed w',
    Observable.observe counting_uuid two_phase_transport MD5 "https://qualys.example" "abc"
                       fresh_world = (Ok observed, w') ∧
    length (sent w') = 2%nat ∧
    length (docs_at observed "sightings") = 2%nat.
Proof.
  destruct (observe_two_phases counting_uuid two_phase_transport MD5
              "https://qualys.example" "abc" fresh_world
              _ _ _ _ _ _ _ _ _ _
              ltac:(vm_compute; reflexivity) ltac:(vm_compute; reflexivity)
              ltac:(vm_compute; reflexivity) ltac:(vm_compute; reflexivity)
              ltac:(vm_compute; reflexivity) ltac:(vm_compute; reflexivity))
    as (observed & retried1 & retried2 & Hobserve & _ & _ & _ & _ & _ & _ &
        Hsightings & _).
  eexists observed, _. split; [exact Hobserve|]. split; [reflexivity|].
  rewrite Hsightings. reflexivity.
Defined.

(** Counterexample to C3 as stated, an observable that holds the text of
    the flag: the URL of the inactive phase, the second request [observe]
    sends, contains [state=true] although the phase is not active. *)
Lemma inactive_url_can_hold_the_flag :
  is_substring "state=true"
    (Observable.events_url MD5 "https://qualys.example" "&state=true&x=" false) = true ∧
  url <$> sent (Observable.observe counting_uuid no_event_transport MD5
                  "https://qualys.example" "&state=true&x=" fresh_world).2 =
    [Observable.events_url MD5 "https://qualys.example" "&state=true&x=" true;
     Observable.events_url MD5 "https://qualys.example" "&state=true&x=" false].
Proof. split; vm_compute; reflexivity. Qed.

(** Witness for C4, a transport whose first answer is a 401: one retry, with
    fresh credentials, and its body is the result. *)
Lemma fetch_retries_unauthorized_once_witness :
  Observable.fetch expired_token_transport MD5 "https://qualys.example" "abc" true
                   fresh_world =
  (Ok (VList []),
   World 0 [Request (Observable.events_url MD5 "https://qualys.example" "abc" true) false;
            Request (Observable.events_url MD5 "https://qualys.example" "abc" true) true]).
Proof.
  apply (proj1 (fetch_retries_unauthorized_once counting_uuid expired_token_transport MD5
                  "https://qualys.example" "abc" true fresh_world)
           (Response 401 (Raise JSONDecodeError)) (Response 200 (Ok (VList []))));
    reflexivity.
Defined.

(** Counterexample to C4 as stated, a status that is neither a success nor
    an error of [raise_for_status]: with 300 on every request, [observe]
    returns. *)
Lemma observe_accepts_status_300 :
  ¬ (200 ≤ 300 < 300) ∧ 300 ≠ 401 ∧
  (Observable.observe counting_uuid multiple_choices_transport MD5
                      "https://qualys.example" "abc" fresh_world).1 = Ok ∅.
Proof. split; [lia|]. split; [done|]. vm_compute. reflexivity. Qed.

(** Witness for C7, a transport with one event in each phase: the four
    keys. *)
Lemma observe_keys_witness :
  ∃ observed w',
    Observable.observe counting_uuid two_phase_transport MD5 "https://qualys.example" "abc"
                       fresh_world = (Ok observed, w') ∧
    dom observed = four_keys.
Proof.
  destruct (observe_keys counting_uuid two_phase_transport MD5
              "https://qualys.example" "abc" fresh_world
              _ _ _ _ _ _ _ _ _ _
              ltac:(vm_compute; reflexivity) ltac:(vm_compute; reflexivity)
              ltac:(vm_compute; reflexivity) ltac:(vm_compute; reflexivity)
              ltac:(vm_compute; reflexivity) ltac:(vm_compute; reflexivity))
    as (observed & Hobserve & Hkeys & _).
  eexists observed, _. split; [exact Hobserve|]. by apply Hkeys.
Defined.

(** Counterexample to C7 as stated, neither phase returns an event:
    [observe] returns the empty mapping, which has none of the four keys. *)
Lemma observe_without_events_has_no_key :
  (Observable.observe counting_uuid no_event_transport MD5 "https://qualys.example" "abc"
                      fresh_world).1 = Ok ∅ ∧
  dom (∅ : gmap string (list entity)) ≠ four_keys.
Proof.
  split; [vm_compute; reflexivity|].
  rewrite dom_empty_L. unfold four_keys. set_solver.
Qed.

(** * Further properties of the module *)

(** ** The path accessor, beyond the examples *)

Lemma string_app_cons c s1 s2 : String c s1 +:+ s2 = String c (s1 +:+ s2).
Proof. reflexivity. Qed.

Lemma string_app_empty_r s : s +:+ "" = s.
Proof. induction s as [|c s IH]; [done|]. by rewrite string_app_cons, IH. Qed.

(** Splitting at the periods leaves a segment without one in front of the
    first word of what follows. *)
Lemma split_dot_free segment path :
  dot_free segment = true →
  split "." (segment +:+ path) =
  (segment +:+ hd EmptyString (split "." path)) :: tail (split "." path).
Proof.
  induction segment as [|c segment IH]; intros Hfree.
  { change ("" +:+ path) with path. by destruct path as [|c path]; [|simpl; repeat case_match]. }
  cbn [dot_free all_chars] in Hfree. apply andb_prop in Hfree as [Hc Hfree].
  rewrite string_app_cons. cbn [split].
  destruct (Ascii.eqb c ".") eqn:Heq; [done|].
  rewrite (IH Hfree). by rewrite string_app_cons.
Qed.

Lemma split_dotted segments :
  forallb dot_free segments = true →
  split "." (dotted segments) = EmptyString :: segments.
Proof.
  induction segments as [|segment segments IH]; [done|].
  cbn [forallb dotted foldr]. intros [Hfree Hrest]%andb_prop.
  rewrite string_app_cons. change ("" +:+ ?s) with s. cbn [split Ascii.eqb].
  change (Ascii.eqb "." ".") with true. cbv iota.
  rewrite (split_dot_free _ _ Hfree). fold (dotted segments). rewrite (IH Hrest).
  cbn [hd tail]. by rewrite string_app_empty_r.
Qed.

Lemma get_parts_reach event segments default :
  match reach_of event segments with
  | Found v => get_parts event segments default = Ok v
  | Missing => get_parts event segments default = Ok default
  | Blocked => True
  end.
Proof.
  revert event. induction segments as [|segment segments IH]; intros event; [done|].
  cbn [reach_of]. destruct event as [| | | | | |d]; try done.
  rewrite get_parts_dict. destruct (assoc segment d) as [v|]; [apply IH|done].
Qed.

(** X1: on a path of any depth whose segments lead through nested dicts,
    [get] returns the value the last segment is bound to, whatever the
    default, and returns the default when a dict on the way does not bind
    the next segment. *)
Theorem get_follows_nested_dicts event segments default :
  forallb dot_free segments = true →
  (∀ v, reach_of event segments = Found v →
        get event (dotted segments) default = Ok v) ∧
  (reach_of event segments = Missing →
   get event (dotted segments) default = Ok default).
Proof.
  intros Hfree. unfold get. rewrite (split_dotted _ Hfree). cbn [tail].
  pose proof (get_parts_reach event segments default) as Hreach.
  split.
  - intros v Hv. by rewrite Hv in Hreach.
  - intros Hmissing. by rewrite Hmissing in Hreach.
Qed.

Lemma get_parts_raises_only_TypeError event parts default :
  get_parts event parts default = Raise TypeError ∨
  ∃ v, get_parts event parts default = Ok v.
Proof.
  revert event. induction parts as [|part parts IH]; intros event; [by right; eexists|].
  destruct event as [| | | |s|l|d]; try (by left).
  - cbn [get_parts contains]. cbn [mbind outcome_bind].
    destruct (is_substring part s); [by left|by right; eexists].
  - cbn [get_parts contains]. cbn [mbind outcome_bind].
    destruct (existsb _ l); [by left|by right; eexists].
  - rewrite get_parts_dict. destruct (assoc part d) as [v|]; [apply IH|].
    by right; eexists.
Qed.

(** X2: whatever the record and the path, [get] either returns or raises
    [TypeError]; it never raises [KeyError], since it indexes a dict only
    after finding the key in it. *)
Theorem get_raises_only_TypeError event path default :
  get event path default = Raise TypeError ∨ ∃ v, get event path default = Ok v.
Proof. apply get_parts_raises_only_TypeError. Qed.

(** X3: [get] drops whatever precedes the first period of the path: a path
    without a period returns the record itself, and a path that starts with
    a name instead of a period is read as if the name were not there. *)
Theorem get_ignores_leading_segment event name rest default :
  dot_free name = true →
  get event name default = Ok event ∧
  get event (name +:+ "." +:+ rest) default = get event ("." +:+ rest) default.
Proof.
  intros Hfree. unfold get. split.
  - rewrite <-(string_app_empty_r name), (split_dot_free _ _ Hfree). done.
  - by rewrite (split_dot_free _ _ Hfree).
Qed.

(** ** The target extractor, beyond the absent interface list *)

Lemma interface_targets_entries kv :
  interface_targets (VDict kv) = Ok (interface_entries kv).
Proof.
  unfold interface_targets, interface_entries. rewrite !dict_get_record.
  cbn [mbind outcome_bind getitem].
  destruct (assoc "ipAddress" kv) as [ip|]; cbn [truthy];
    [destruct (truthy ip)|];
    (destruct (assoc "macAddress" kv) as [mac|]; cbn [truthy];
       [destruct (truthy mac)|]); done.
Qed.

Lemma interfaces_entries kvs :
  mapM interface_targets (VDict <$> kvs) = Ok (interface_entries <$> kvs).
Proof.
  induction kvs as [|kv kvs IH]; [done|].
  rewrite fmap_cons. cbn [mapM]. rewrite interface_targets_entries.
  cbn [mbind outcome_bind]. by rewrite IH.
Qed.

Lemma interfaces_reject_non_record l :
  forallb is_record l = false → mapM interface_targets l = Raise AttributeError.
Proof.
  induction l as [|interface l IH]; [done|].
  cbn [forallb mapM]. destruct interface as [| | | | | |kv]; try done.
  cbn [is_record andb]. intros Hl. rewrite interface_targets_entries.
  cbn [mbind outcome_bind]. by rewrite (IH Hl).
Qed.

(** X4: on an event whose asset record lists interface records, the targets
    are the hostname entry, when the NetBIOS name is truthy, followed by the
    entries of the interfaces in their order, each interface giving its IP
    address and then its MAC address, those that are truthy. *)
Theorem targets_in_order d asset kvs :
  assoc "asset" d = Some (VDict asset) →
  assoc "interfaces" asset = Some (VList (VDict <$> kvs)) →
  targets (VDict d) = Ok (hostname_entry asset ++ (kvs ≫= interface_entries)).
Proof.
  intros Hasset Hinterfaces. rewrite (targets_with_asset _ _ Hasset), Hinterfaces.
  assert (iterate (py_or (VList (VDict <$> kvs)) (VList [])) = Ok (VDict <$> kvs)) as ->.
  { by destruct kvs. }
  cbn [mbind outcome_bind]. rewrite interfaces_entries. cbn [mbind outcome_bind].
  do 2 f_equal. clear. induction kvs as [|kv kvs IH]; [done|]. cbn. by f_equal.
Qed.

(** X5: the target extractor raises [AttributeError] when the asset of the
    event is bound to something that is not a dict, and when the interface
    list holds an item that is not a dict. *)
Theorem targets_rejects_non_records d :
  (∀ v, assoc "asset" d = Some v → is_record v = false →
        targets (VDict d) = Raise AttributeError) ∧
  (∀ asset l, assoc "asset" d = Some (VDict asset) →
              assoc "interfaces" asset = Some (VList l) →
              forallb is_record l = false →
              targets (VDict d) = Raise AttributeError).
Proof.
  split.
  - intros v Hasset Hv. unfold targets. cbn [getitem]. rewrite Hasset.
    by destruct v.
  - intros asset l Hasset Hinterfaces Hl.
    rewrite (targets_with_asset _ _ Hasset), Hinterfaces.
    assert (iterate (py_or (VList l) (VList [])) = Ok l) as -> by by destruct l.
    cbn [mbind outcome_bind]. by rewrite (interfaces_reject_non_record _ Hl).
Qed.

(** ** Computations that send no request *)

Lemma draws_only_ret {A} (a : A) : draws_only (mret a).
Proof. intros w o w' [= <- <-]. exists O. by rewrite after_draws_0. Qed.

Lemma draws_only_lift {A} (o : outcome A) : draws_only (lift o).
Proof. intros w o' w' [= <- <-]. exists O. by rewrite after_draws_0. Qed.

Lemma draws_only_bind {A B} (m : M A) (f : A → M B) :
  draws_only m → (∀ a, draws_only (f a)) → draws_only (m ≫= f).
Proof.
  intros Hm Hf w o w'. unfold mbind, M_bind.
  destruct (m w) as [[a|e] w1] eqn:Hrun.
  - destruct (Hm _ _ _ Hrun) as [n ->]. intros Hrest.
    destruct (Hf a _ _ _ Hrest) as [k ->]. exists (n + k)%nat.
    by rewrite after_draws_add.
  - intros [= <- <-]. by apply (Hm _ _ _ Hrun).
Qed.

Lemma draws_only_mapM {A B} (f : A → M B) l :
  (∀ x, draws_only (f x)) → draws_only (mapM f l).
Proof.
  intros Hf. induction l as [|x l IH]; [apply draws_only_ret|].
  cbn [mapM]. apply draws_only_bind; [done|]. intros y.
  apply draws_only_bind; [done|]. intros ys. apply draws_only_ret.
Qed.

Section FurtherWorldProperties.

Variable uuid4_str : nat → string.
Variable transport : nat → request → outcome response.

#[local] Abbreviation uuid4 := (Observable.uuid4 uuid4_str).
#[local] Abbreviation sighting := (Observable.sighting uuid4_str).
#[local] Abbreviation judgement := (Observable.judgement uuid4_str).
#[local] Abbreviation indicator := (Observable.indicator uuid4_str).
#[local] Abbreviation relationship := (Observable.relationship uuid4_str).
#[local] Abbreviation map := (Observable.map uuid4_str).
#[local] Abbreviation fetch := (Observable.fetch transport).
#[local] Abbreviation observe := (Observable.observe uuid4_str transport).
#[local] Abbreviation observe_phase := (Observable.observe_phase uuid4_str transport).
#[local] Abbreviation tid := (transient uuid4_str).

Lemma draws_only_uuid4 : draws_only uuid4.
Proof. intros w o w'. rewrite uuid4_run. intros [= <- <-]. by exists 1%nat. Qed.

Lemma draws_only_relationship sources_ type_ targets_ :
  draws_only (relationship sources_ type_ targets_).
Proof. intros w o w'. rewrite relationship_run. intros [= <- <-]. by eexists. Qed.

Lemma draws_only_judgement self observable event entry :
  draws_only (judgement self observable event entry).
Proof.
  unfold Observable.judgement.
  repeat (apply draws_only_bind;
          [first [apply draws_only_lift | apply draws_only_uuid4]|intros ?]).
  apply draws_only_ret.
Qed.

(** Mapping an event sends no request, whether it returns or raises. *)
Lemma draws_only_map self observable event active :
  draws_only (map self observable event active).
Proof.
  unfold Observable.map. apply draws_only_bind.
  { unfold Observable.sighting.
    repeat (apply draws_only_bind;
            [first [apply draws_only_lift | apply draws_only_uuid4]|intros ?]).
    apply draws_only_ret. }
  intros s. apply draws_only_bind; [apply draws_only_lift|]. intros entries.
  apply draws_only_bind.
  { apply draws_only_mapM. intros entry. apply draws_only_judgement. }
  intros js. apply draws_only_bind.
  { unfold Observable.indicator.
    repeat (apply draws_only_bind;
            [first [apply draws_only_lift | apply draws_only_uuid4]|intros ?]).
    apply draws_only_ret. }
  intros i.
  repeat (apply draws_only_bind; [apply draws_only_relationship|intros ?]).
  apply draws_only_ret.
Qed.

Lemma draws_only_map_all self observable active events :
  draws_only (mapM (λ event, map self observable event active) events).
Proof. apply draws_only_mapM. intros event. apply draws_only_map. Qed.

(** ** Events that [map] rejects *)

Lemma mapped_raises_only_TypeError event rs :
  mapped event rs = Raise TypeError ∨ ∃ out, mapped event rs = Ok out.
Proof.
  induction rs as [|[[[source_type source_path] relation] [target_type target_path]] rs IH];
    [by right; eexists|].
  cbn [mapped].
  destruct (get_parts_raises_only_TypeError event (tail (split "." source_path)) VNone)
    as [Hs|[sv Hs]]; fold (get event source_path VNone) in Hs; rewrite Hs; [by left|].
  destruct (get_parts_raises_only_TypeError event (tail (split "." target_path)) VNone)
    as [Ht|[tv Ht]]; fold (get event target_path VNone) in Ht; rewrite Ht; [by left|].
  cbn [mbind outcome_bind].
  destruct IH as [->|[rest ->]]; [by left|]. cbn [mbind outcome_bind].
  right. destruct (truthy sv && truthy tv); by eexists.
Qed.

Lemma map_on_non_record self observable event active w :
  is_record event = false →
  map self observable event active w = (Raise TypeError, after_draws 1 w).
Proof.
  intros Hevent. unfold Observable.map. apply bind_Raise.
  unfold Observable.sighting. rewrite (bind_Ok _ _ _ _ _ (uuid4_run uuid4_str w)).
  cbv beta. rewrite bind_lift.
  destruct (get_parts_raises_only_TypeError event (tail (split "." ".id")) VNone)
    as [H|[v H]]; fold (get event ".id" VNone) in H; rewrite H; [done|].
  rewrite bind_lift.
  destruct (get_parts_raises_only_TypeError event (tail (split "." ".dateTime")) VNone)
    as [H'|[v' H']]; fold (get event ".dateTime" VNone) in H'; rewrite H'; [done|].
  rewrite bind_lift. unfold relations.
  destruct (mapped_raises_only_TypeError event rules) as [->|[out ->]]; [done|].
  rewrite bind_lift.
  assert (targets event = Raise TypeError) as ->; [|done].
  by destruct event.
Qed.

(** X6: an event that is not a JSON object (a string, a list, a number,
    [null], ...) makes [map] raise [TypeError], after the one identifier its
    sighting drew and before any request or further draw. *)
Theorem map_rejects_non_record_event self observable event active w :
  is_record event = false →
  map self observable event active w = (Raise TypeError, after_draws 1 w).
Proof. apply map_on_non_record. Qed.

Lemma sighting_shaped_lookups event :
  sighting_shaped event = true →
  is_Ok (get event ".id" VNone) = true ∧
  is_Ok (get event ".dateTime" VNone) = true ∧
  is_Ok (relations event) = true ∧
  is_Ok (targets event) = true ∧
  is_Ok (get event ".asset.fullOSName" VNone) = true.
Proof.
  destruct event as [| | | | | |d]; try done. simpl.
  intros [[[Hfile Hprocess]%andb_prop Hnetwork]%andb_prop Hasset]%andb_prop.
  destruct (assoc "asset" d) as [[| | | | | |asset]|] eqn:Hd; try done.
  split. { rewrite (get_path _ ".id" ["id"] _ eq_refl), get_parts_dict.
           by destruct (assoc "id" d). }
  split. { rewrite (get_path _ ".dateTime" ["dateTime"] _ eq_refl), get_parts_dict.
           by destruct (assoc "dateTime" d). }
  split. { unfold relations. by rewrite mapped_resolving; [|apply rules_resolve_on_records]. }
  split. { by apply (targets_well_shaped d asset). }
  rewrite (get_path _ ".asset.fullOSName" ["asset"; "fullOSName"] _ eq_refl),
    get_parts_dict, Hd, get_parts_dict. by destruct (assoc "fullOSName" asset).
Qed.

Lemma judgement_rejects self observable event entry w :
  verdict_record entry = false →
  judgement self observable event entry w =
  (Raise (if is_record entry then TypeError else AttributeError), w).
Proof.
  intros Hentry. unfold Observable.judgement. rewrite bind_lift.
  destruct entry as [| | | | | |kv]; try done.
  rewrite dict_get_record. rewrite bind_lift. simpl in Hentry.
  by destruct (assoc "verdict" kv) as [[]|].
Qed.

Lemma judgements_reject self observable event entries bad w :
  is_Ok (get event ".id" VNone) = true →
  first_offender entries = Some bad →
  ∃ n, mapM (judgement self observable event) entries w =
       (Raise (if is_record bad then TypeError else AttributeError), after_draws n w).
Proof.
  intros Hid. revert w. induction entries as [|entry entries IH]; intros w; [done|].
  unfold first_offender. cbn [find]. rewrite mapM_cons_run.
  destruct (verdict_record entry) eqn:Hentry; cbn [negb].
  - intros Hbad.
    destruct (judgement_returns uuid4_str self observable event entry w Hid Hentry)
      as [j ->].
    destruct (IH (after_draws 1 w) Hbad) as [n ->]. exists (1 + n)%nat.
    by rewrite after_draws_add.
  - intros [= <-]. rewrite (judgement_rejects _ _ _ _ _ Hentry). exists O.
    by rewrite after_draws_0.
Qed.

(** X7: when the verdict list of an event holds an entry that [judgement]
    cannot take, [map] raises for the first such entry, with no request
    sent: [AttributeError] if the entry is not a dict, [TypeError] if its
    verdict is a list or a dict, which the table lookup cannot hash. *)
Theorem map_rejects_malformed_verdict self observable event active w entries bad :
  sighting_shaped event = true →
  verdict_entries event = Ok entries →
  first_offender entries = Some bad →
  ∃ n, map self observable event active w =
       (Raise (if is_record bad then TypeError else AttributeError), after_draws n w).
Proof.
  intros (Hid & Htime & Hrelations & Htargets & Hos)%sighting_shaped_lookups
    Hentries Hbad.
  destruct (sighting_returns uuid4_str self observable event active w Hid Htime
              Hrelations Htargets Hos) as [s Hs].
  destruct (judgements_reject self observable event entries bad (after_draws 1 w) Hid Hbad)
    as [n Hjs].
  exists (1 + n)%nat. unfold Observable.map.
  rewrite (bind_Ok _ _ _ _ _ Hs), bind_lift. fold (verdict_entries event).
  rewrite Hentries. rewrite (bind_Raise _ _ _ _ _ Hjs). by rewrite after_draws_add.
Qed.

(** ** What the documents of one event share *)

Lemma claimed_disposition_range verdict :
  claimed_disposition verdict ∈ [(1, "Clean"); (2, "Malicious"); (5, "Unknown")]%string.
Proof.
  unfold claimed_disposition. destruct verdict as [[| | | |s| |]|]; try set_solver.
  repeat case_decide; set_solver.
Qed.

(** X8: the disposition code and name of a judgement always agree: the pair
    is (1, "Clean"), (2, "Malicious") or (5, "Unknown"), whatever the
    verdict record holds. *)
Theorem map_dispositions_agree self observable event active w r w' :
  map self observable event active w = (Ok r, w') →
  Forall (λ j, (Judgement.disposition j, Judgement.disposition_name j) ∈
               [(1, "Clean"); (2, "Malicious"); (5, "Unknown")]%string)
         (Mapped.judgements r).
Proof.
  intros (s & kvs & _ & _ & -> & _)%map_Ok_inv.
  unfold mapped_of. cbn [Mapped.judgements].
  apply Forall_forall. intros j (k & kv & -> & _)%elem_of_lookup_imap.
  cbn [judgement_of Judgement.disposition Judgement.disposition_name].
  pose proof (claimed_disposition_range (assoc "verdict" kv)) as Hrange.
  by destruct (claimed_disposition (assoc "verdict" kv)).
Qed.

(** X9: the sighting, the judgements and the indicator of one event carry
    the same single external id, the event's [.id] ([None] when it has
    none), the sighting and the judgements name the same observable, of the
    kind's type and the value asked for, and the relationships carry no
    external id. *)
Theorem map_documents_share_identity self observable event active w r w' :
  map self observable event active w = (Ok r, w') →
  ∃ external_id,
    get event ".id" VNone = Ok external_id ∧
    Forall (λ s, Sighting.external_ids s = [external_id] ∧
                 Sighting.observables s =
                   [Typed.Make (Observable.type self) (VStr observable)])
           (Mapped.sightings r) ∧
    Forall (λ j, Judgement.external_ids j = [external_id] ∧
                 Judgement.observable j =
                   Typed.Make (Observable.type self) (VStr observable))
           (Mapped.judgements r) ∧
    Forall (λ i, Indicator.external_ids i = [external_id]) (Mapped.indicators r) ∧
    Forall (λ rel, Relationship.external_ids rel = []) (Mapped.relationships r).
Proof.
  intros (s & kvs & Hs & _ & -> & _)%map_Ok_inv.
  apply sighting_Ok_inv in Hs
    as (_ & external_id & start_time & relations_ & targets_ & os & Hid & _ & _ & _ & _ & ->).
  exists external_id. split; [done|].
  unfold mapped_of. cbn [Mapped.sightings Mapped.judgements Mapped.indicators
                         Mapped.relationships].
  rewrite (resolved_Ok _ _ _ Hid).
  split; [by apply Forall_singleton|].
  split. { apply Forall_forall. by intros j (k & kv & -> & _)%elem_of_lookup_imap. }
  split; [by apply Forall_singleton|].
  rewrite !Forall_app. unfold link_all.
  repeat split; apply Forall_forall; by intros rel (k & p & -> & _)%elem_of_lookup_imap.
Qed.

(** ** The phase flag *)

Lemma link_all_by_ids first type_ (ps qs : list (entity * entity)) :
  Forall2 (λ p q, entity_id p.1 = entity_id q.1 ∧ entity_id p.2 = entity_id q.2) ps qs →
  link_all uuid4_str first type_ ps = link_all uuid4_str first type_ qs.
Proof.
  unfold link_all. intros Hpairs. revert first.
  induction Hpairs as [|p q ps qs [H1 H2] _ IH]; intros first; [done|].
  rewrite !imap_cons. f_equal.
  - unfold link. by rewrite H1, H2.
  - rewrite (imap_ext _ (λ k, link type_ (tid (S first + k))) ps),
            (imap_ext (_ ∘ S) (λ k, link type_ (tid (S first + k))) qs).
    + apply IH.
    + intros k x _. simpl. do 2 f_equal. lia.
    + intros k x _. simpl. do 2 f_equal. lia.
Qed.

Lemma link_all_retagged first type_ active s (targets_ : list entity) :
  link_all uuid4_str first type_ (list_prod [ESighting (with_active active s)] targets_) =
  link_all uuid4_str first type_ (list_prod [ESighting s] targets_).
Proof.
  apply link_all_by_ids. cbn [list_prod]. rewrite !app_nil_r.
  induction targets_ as [|target targets_ IH]; by constructor.
Qed.

(** X10: the phase flag reaches nothing but the data row of the sighting:
    from the same world, [map] with the other flag returns the same
    judgements, indicator and relationships, with the same identifiers, and
    the same sighting but for that row. *)
Theorem map_flag_only_tags_sighting self observable event active active' w r w' :
  map self observable event active w = (Ok r, w') →
  map self observable event active' w = (Ok (retagged active' r), w').
Proof.
  unfold Observable.map. intros H.
  apply bind_Ok_inv in H as (s & w1 & Hs & H).
  assert (sighting self observable event active' w = (Ok (with_active active' s), w1))
    as Hs'.
  { pose proof Hs as (-> & external_id & start_time & relations_ & targets_ & os &
                      Hid & Htime & Hrelations & Htargets & Hos & ->)%sighting_Ok_inv.
    unfold Observable.sighting. rewrite (bind_Ok _ _ _ _ _ (uuid4_run uuid4_str w)).
    cbv beta. rewrite Hid, Htime, Hrelations, Htargets, Hos.
    by rewrite !bind_lift. }
  rewrite (bind_Ok _ _ _ _ _ Hs').
  rewrite bind_lift in H. rewrite bind_lift.
  destruct (get event ".indicator2" VNone ≫= _) as [entries|]; [|done].
  apply bind_Ok_inv in H as (js & w2 & Hjs & H). rewrite (bind_Ok _ _ _ _ _ Hjs).
  apply bind_Ok_inv in H as (i & w3 & Hi & H). rewrite (bind_Ok _ _ _ _ _ Hi).
  rewrite !bind_Ok with (1 := relationship_run _ _ _ _ _).
  cbn [fmap list_fmap]. rewrite !link_all_retagged.
  rewrite !bind_Ok with (1 := relationship_run _ _ _ _ _) in H.
  unfold mret, M_ret in *. by injection H as <- <-.
Qed.

(** ** The orchestrator, beyond the successful run *)

(** X11: one event that [map] rejects makes the whole call fail: [observe]
    raises what [map] raised, returns nothing of the events mapped before
    it, and sends no further request; in the active phase the inactive
    fetch is never made. *)
Theorem observe_aborts_on_rejected_event self api observable w :
  (∀ body w1 events e w2,
     fetch self api observable true w = (Ok body, w1) →
     iterate body = Ok events →
     mapM (λ event, map self observable event true) events w1 = (Raise e, w2) →
     observe self api observable w = (Raise e, w2) ∧ sent w2 = sent w1) ∧
  (∀ observed w1 body w2 events e w3,
     observe_phase self api observable ∅ true w = (Ok observed, w1) →
     fetch self api observable false w1 = (Ok body, w2) →
     iterate body = Ok events →
     mapM (λ event, map self observable event false) events w2 = (Raise e, w3) →
     observe self api observable w = (Raise e, w3) ∧ sent w3 = sent w2).
Proof.
  split.
  - intros body w1 events e w2 Hbody Hevents Hmap. split.
    + by rewrite observe_run, observe_phase_run, Hbody, Hevents, Hmap.
    + by destruct (draws_only_map_all _ _ _ _ _ _ _ Hmap) as [n ->].
  - intros observed w1 body w2 events e w3 Hphase Hbody Hevents Hmap. split.
    + by rewrite observe_run, Hphase, observe_phase_run, Hbody, Hevents, Hmap.
    + by destruct (draws_only_map_all _ _ _ _ _ _ _ Hmap) as [n ->].
Qed.

Lemma map_counts self observable event active w r w' :
  map self observable event active w = (Ok r, w') →
  length (Mapped.sightings r) = 1%nat ∧
  length (Mapped.indicators r) = 1%nat ∧
  length (Mapped.relationships r) = (2 * length (Mapped.judgements r) + 1)%nat.
Proof.
  intros (s & kvs & _ & _ & -> & _)%map_Ok_inv.
  unfold mapped_of. cbn [Mapped.sightings Mapped.indicators Mapped.relationships
                         Mapped.judgements].
  split; [done|]. split; [done|].
  rewrite !length_app, !link_all_length, !length_prod, !length_fmap, !length_imap.
  simpl. lia.
Qed.

Lemma length_bind_fmap {A B C} (f : B → C) (g : A → list B) (l : list A) :
  length (l ≫= λ x, f <$> g x) = length (l ≫= g).
Proof.
  induction l as [|x l IH]; [done|].
  cbn [mbind list_bind]. by rewrite !length_app, length_fmap, IH.
Qed.

Lemma map_all_counts self observable active events w rs w' :
  mapM (λ event, map self observable event active) events w = (Ok rs, w') →
  length (rs ≫= Mapped.sightings) = length events ∧
  length (rs ≫= Mapped.indicators) = length events ∧
  length (rs ≫= Mapped.relationships) =
    (2 * length (rs ≫= Mapped.judgements) + length events)%nat.
Proof.
  intros [_ Hrs]%map_all_Ok_inv.
  induction Hrs as [|event r events rs (w1 & w2 & Hr & _) _ IH]; [done|].
  apply map_counts in Hr as (Hs & Hi & Hrel).
  destruct IH as (IHs & IHi & IHrel).
  cbn [mbind list_bind length]. rewrite !length_app, Hs, Hi, Hrel, IHs, IHi, IHrel.
  repeat split; lia.
Qed.

(** X12: nothing is merged away: the result holds one sighting and one
    indicator per event returned, counting an event that both phases return
    twice, and its relationships number twice its judgements plus one per
    event. *)
Theorem observe_counts self api observable w body1 w1 events1 rs1 w2 body2 w3 events2
    rs2 w4 :
  fetch self api observable true w = (Ok body1, w1) →
  iterate body1 = Ok events1 →
  mapM (λ event, map self observable event true) events1 w1 = (Ok rs1, w2) →
  fetch self api observable false w2 = (Ok body2, w3) →
  iterate body2 = Ok events2 →
  mapM (λ event, map self observable event false) events2 w3 = (Ok rs2, w4) →
  ∃ observed,
    observe self api observable w = (Ok observed, w4) ∧
    length (docs_at observed "sightings") = (length events1 + length events2)%nat ∧
    length (docs_at observed "indicators") = (length events1 + length events2)%nat ∧
    length (docs_at observed "relationships") =
      (2 * length (docs_at observed "judgements") +
       (length events1 + length events2))%nat.
Proof.
  intros Hbody1 Hevents1 Hrs1 Hbody2 Hevents2 Hrs2.
  exists (merge_all ∅ (rs1 ++ rs2)). split; [by eapply observe_returns|].
  apply map_all_counts in Hrs1 as (Hs1 & Hi1 & Hr1).
  apply map_all_counts in Hrs2 as (Hs2 & Hi2 & Hr2).
  rewrite !merge_all_docs.
  change (docs_at ∅ "sightings") with (@nil entity).
  change (docs_at ∅ "judgements") with (@nil entity).
  change (docs_at ∅ "indicators") with (@nil entity).
  change (docs_at ∅ "relationships") with (@nil entity).
  change (λ r, docs_of r "sightings") with (λ r, ESighting <$> Mapped.sightings r).
  change (λ r, docs_of r "judgements") with (λ r, EJudgement <$> Mapped.judgements r).
  change (λ r, docs_of r "indicators") with (λ r, EIndicator <$> Mapped.indicators r).
  change (λ r, docs_of r "relationships")
    with (λ r, ERelationship <$> Mapped.relationships r).
  cbn [app]. rewrite !length_bind_fmap, !bind_app, !length_app. lia.
Qed.

(** The identifiers of the results of a phase are the draws made for them,
    in the order of the events. *)
Lemma map_all_ids self observable active events w rs w' :
  mapM (λ event, map self observable event active) events w = (Ok rs, w') →
  w' = after_draws (length (rs ≫= documents)) w ∧
  entity_id <$> (rs ≫= documents) = tid <$> seq (drawn w) (length (rs ≫= documents)).
Proof.
  revert w rs. induction events as [|event events IH]; intros w rs.
  { simpl. unfold mret, M_ret. intros [= <- <-]. by rewrite after_draws_0. }
  rewrite mapM_cons_run.
  destruct (map self observable event active w) as [[r|e] w1] eqn:Hr; [|done].
  destruct (mapM (λ event, map self observable event active) events w1)
    as [[rs'|e] w2] eqn:Hrs; [|done].
  intros [= <- <-]. apply IH in Hrs as [-> Hids].
  apply map_Ok_inv in Hr as (s & kvs & Hs & _ & -> & ->).
  apply sighting_Ok_inv in Hs
    as (_ & external_id & start_time & relations_ & targets_ & os & _ & _ & _ & _ & _ & Hs).
  assert (Sighting.id s = tid (drawn w)) as Hid by by rewrite Hs.
  destruct (mapped_of_ids uuid4_str self observable event s kvs (drawn w) Hid)
    as [Hlen Hr].
  cbn [mbind list_bind]. rewrite length_app, after_draws_add, Hlen. split; [done|].
  rewrite fmap_app, seq_app, fmap_app, Hr, Hlen, Hids. done.
Qed.

Lemma documents_by_key (rs : list Mapped.t) :
  rs ≫= documents ≡ₚ
    (rs ≫= λ r, ESighting <$> Mapped.sightings r) ++
    (rs ≫= λ r, EJudgement <$> Mapped.judgements r) ++
    (rs ≫= λ r, EIndicator <$> Mapped.indicators r) ++
    (rs ≫= λ r, ERelationship <$> Mapped.relationships r).
Proof.
  induction rs as [|r rs IH]; [done|].
  cbn [mbind list_bind]. rewrite IH, documents_eq. solve_Permutation.
Qed.

(** X13: all documents of what [observe] returns, over both phases and the
    four keys, carry the identifiers of the draws made during the call, each
    draw on one document; so they are pairwise distinct whenever those draws
    are. *)
Theorem observe_identifiers self api observable w body1 w1 events1 rs1 w2 body2 w3
    events2 rs2 w4 :
  fetch self api observable true w = (Ok body1, w1) →
  iterate body1 = Ok events1 →
  mapM (λ event, map self observable event true) events1 w1 = (Ok rs1, w2) →
  fetch self api observable false w2 = (Ok body2, w3) →
  iterate body2 = Ok events2 →
  mapM (λ event, map self observable event false) events2 w3 = (Ok rs2, w4) →
  ∃ observed,
    observe self api observable w = (Ok observed, w4) ∧
    drawn w4 = (drawn w + length (all_docs observed))%nat ∧
    entity_id <$> all_docs observed ≡ₚ
      (λ n, "transient:" +:+ uuid4_str n) <$> seq (drawn w) (length (all_docs observed)) ∧
    (NoDup (uuid4_str <$> seq (drawn w) (length (all_docs observed))) →
     NoDup (entity_id <$> all_docs observed)).
Proof.
  intros Hbody1 Hevents1 Hrs1 Hbody2 Hevents2 Hrs2.
  pose proof (observe_returns _ _ _ _ _ _ _ _ _ _ _ _ _ _ _ _
                Hbody1 Hevents1 Hrs1 Hbody2 Hevents2 Hrs2) as Hobserve.
  eexists. split; [exact Hobserve|]. clear Hobserve.
  apply fetch_requests in Hbody1 as [retried1 ->].
  apply map_all_ids in Hrs1 as [-> Hids1].
  apply fetch_requests in Hbody2 as [retried2 ->].
  apply map_all_ids in Hrs2 as [-> Hids2].
  cbn [drawn after_draws] in *.
  set (observed := merge_all ∅ (rs1 ++ rs2)).
  assert (all_docs observed ≡ₚ (rs1 ++ rs2) ≫= documents) as Hall.
  { unfold all_docs, observed. rewrite !merge_all_docs.
    change (docs_at ∅ "sightings") with (@nil entity).
    change (docs_at ∅ "judgements") with (@nil entity).
    change (docs_at ∅ "indicators") with (@nil entity).
    change (docs_at ∅ "relationships") with (@nil entity).
    cbn [app]. symmetry. apply documents_by_key. }
  assert (entity_id <$> ((rs1 ++ rs2) ≫= documents) =
          tid <$> seq (drawn w) (length ((rs1 ++ rs2) ≫= documents))) as Hids.
  { rewrite bind_app, fmap_app, length_app, seq_app, fmap_app, Hids1, Hids2. done. }
  pose proof (Permutation_length Hall) as Hlen.
  split. { rewrite Hlen, bind_app, length_app. lia. }
  split. { by rewrite Hlen, Hall, Hids. }
  rewrite Hlen. intros Hdistinct. rewrite Hall, Hids.
  change tid with (String.append "transient:" ∘ uuid4_str).
  rewrite list_fmap_compose. by apply (NoDup_fmap_2 _).
Qed.

(** X14: a body that is not a list is not taken for an empty result: a
    [null], boolean or numeric body makes [observe] raise [TypeError] when it
    iterates it, and a non-empty object or string (an error object delivered
    with a success status, say) makes it raise [TypeError] on the first key
    or character it takes for an event, after one draw. *)
Theorem observe_rejects_body_that_is_no_list self api observable w body w1 :
  fetch self api observable true w = (Ok body, w1) →
  match body with
  | VNone | VBool _ | VInt _ | VFloat _ =>
      observe self api observable w = (Raise TypeError, w1)
  | VStr (String _ _) | VDict (_ :: _) =>
      observe self api observable w = (Raise TypeError, after_draws 1 w1)
  | VStr EmptyString | VDict [] | VList _ => True
  end.
Proof.
  intros Hbody. rewrite observe_run, observe_phase_run, Hbody.
  destruct body as [| | | |[|c s]|l|[|[k v] d]]; try done.
  - cbn [iterate chars fmap list_fmap]. rewrite mapM_cons_run.
    by rewrite map_on_non_record.
  - cbn [iterate fmap list_fmap fst]. rewrite mapM_cons_run.
    by rewrite map_on_non_record.
Qed.

(** X15: whatever happens, a call of [observe] sends the one or two
    requests of the active fetch and then, at most, the one or two of the
    inactive fetch: never more than four requests, never one with fresh
    credentials that does not follow a request for the same URL. *)
Theorem observe_sends_its_phases_only self api observable w o w' :
  observe self api observable w = (o, w') →
  ∃ retried1 rest,
    sent w' = sent w ++
      phase_requests (Observable.events_url self api observable true) retried1 ++ rest ∧
    (rest = [] ∨
     ∃ retried2,
       rest = phase_requests (Observable.events_url self api observable false) retried2) ∧
    (length (sent w) < length (sent w') ≤ length (sent w) + 4)%nat.
Proof.
  intros Hobserve.
  assert (∃ retried1 rest,
    sent w' = sent w ++
      phase_requests (Observable.events_url self api observable true) retried1 ++ rest ∧
    (rest = [] ∨
     ∃ retried2,
       rest = phase_requests (Observable.events_url self api observable false) retried2))
    as (retried1 & rest & Hsent & Hrest).
  { rewrite observe_run, observe_phase_run in Hobserve.
    destruct (fetch self api observable true w) as [[body1|e] w1] eqn:Hbody1.
    2: { injection Hobserve as <- <-. apply fetch_requests in Hbody1 as [retried1 ->].
         exists retried1, []. split; [by rewrite app_nil_r|by left]. }
    apply fetch_requests in Hbody1 as [retried1 ->].
    destruct (iterate body1) as [events1|e].
    2: { injection Hobserve as <- <-. exists retried1, [].
         split; [by rewrite app_nil_r|by left]. }
    destruct (mapM (λ event, map self observable event true) events1 _)
      as [[rs1|e] w2] eqn:Hrs1;
      destruct (draws_only_map_all _ _ _ _ _ _ _ Hrs1) as [n1 ->].
    2: { injection Hobserve as <- <-. exists retried1, [].
         split; [by rewrite app_nil_r|by left]. }
    rewrite observe_phase_run in Hobserve.
    destruct (fetch self api observable false _) as [[body2|e] w3] eqn:Hbody2;
      apply fetch_requests in Hbody2 as [retried2 ->].
    2: { injection Hobserve as <- <-. exists retried1,
           (phase_requests (Observable.events_url self api observable false) retried2).
         split; [by rewrite <-app_assoc|]. right. by exists retried2. }
    destruct (iterate body2) as [events2|e].
    2: { injection Hobserve as <- <-. exists retried1,
           (phase_requests (Observable.events_url self api observable false) retried2).
         split; [by rewrite <-app_assoc|]. right. by exists retried2. }
    destruct (mapM (λ event, map self observable event false) events2 _)
      as [[rs2|e] w4] eqn:Hrs2;
      destruct (draws_only_map_all _ _ _ _ _ _ _ Hrs2) as [n2 ->];
      injection Hobserve as <- <-; exists retried1,
           (phase_requests (Observable.events_url self api observable false) retried2);
      (split; [by rewrite <-app_assoc|]; right; by exists retried2). }
  exists retried1, rest. split; [done|]. split; [done|].
  rewrite Hsent, !length_app.
  destruct Hrest as [->|[retried2 ->]]; destruct retried1; try destruct retried2;
    simpl; lia.
Qed.

End FurtherWorldProperties.

(** ** The registry, the filters and the referral URL *)

(** X16: the registry returns a kind exactly for the type tag of that kind:
    a lookup never yields a kind under another kind's tag, and no two kinds
    share a tag. *)
Theorem registry_lookup_exact tag k :
  Observable.of_ tag = Some k ↔ Observable.type k = tag.
Proof.
  split.
  - unfold Observable.of_. intros [_ Heq]%find_some. by apply String.eqb_eq in Heq.
  - intros <-. by destruct k.
Qed.

Lemma string_length_app s1 s2 :
  String.length (s1 +:+ s2) = (String.length s1 + String.length s2)%nat.
Proof.
  induction s1 as [|c s1 IH]; [done|]. rewrite string_app_cons. simpl. by rewrite IH.
Qed.

Lemma string_app_inj_length s1 s2 t1 t2 :
  s1 +:+ t1 = s2 +:+ t2 → String.length s1 = String.length s2 → s1 = s2.
Proof.
  revert s2. induction s1 as [|c s1 IH]; intros [|c' s2]; try done.
  rewrite !string_app_cons. intros [= <- Heq] [= Hlen]. f_equal. by apply IH.
Qed.

Lemma filter_inj k v v' : Observable.filter k v = Observable.filter k v' → v = v'.
Proof.
  intros Heq.
  assert (String.length v = String.length v') as Hlen.
  { apply (f_equal String.length) in Heq.
    destruct k; unfold Observable.filter in Heq; rewrite !string_length_app in Heq;
      simpl in Heq; lia. }
  destruct k; unfold Observable.filter in Heq;
    do 2 (apply String.app_inj in Heq);
    by apply (string_app_inj_length _ _ _ _ Heq).
Qed.

Lemma all_chars_app test s1 s2 :
  all_chars test (s1 +:+ s2) = all_chars test s1 && all_chars test s2.
Proof.
  induction s1 as [|c s1 IH]; [done|].
  rewrite string_app_cons. cbn [all_chars]. by rewrite IH, andb_assoc.
Qed.

Lemma quote_char_alphabet c : all_chars url_char (urllib.quote_char c) = true.
Proof. destruct c as [[] [] [] [] [] [] [] []]; reflexivity. Qed.

Lemma quote_char_decode c rest :
  percent_decode (urllib.quote_char c +:+ rest) = String c (percent_decode rest).
Proof. destruct c as [[] [] [] [] [] [] [] []]; reflexivity. Qed.

Lemma percent_decode_quote s : percent_decode (urllib.quote s) = s.
Proof.
  induction s as [|c s IH]; [done|].
  cbn [urllib.quote]. by rewrite quote_char_decode, IH.
Qed.

(** X17: the search expression of a referral URL is escaped: after the
    fixed prefix it holds only letters, digits, [_.-~/] and the percent sign
    of the escapes, so no double quote, space, ampersand, hash, question
    mark or equals sign of the filter or of the observable reaches the URL
    as it is. *)
Theorem refer_is_escaped self api observable :
  ∃ search,
    Observable.refer self api observable = api +:+ "/ioc/#/hunting?search=" +:+ search ∧
    all_chars url_char search = true ∧
    Forall (λ c, url_char c = false) [ "034"; " "; "&"; "#"; "?"; "=" ]%char.
Proof.
  exists (urllib.quote (Observable.filter self observable)).
  split; [done|]. split.
  - induction (Observable.filter self observable) as [|c s IH]; [done|].
    cbn [urllib.quote]. by rewrite all_chars_app, quote_char_alphabet, IH.
  - by repeat constructor.
Qed.

(** X18: the escaping loses nothing and the filters keep the values apart:
    reading the escapes of [quote] gives the string back, and for a kind and
    an API base two observables with the same filter, the same query URL or
    the same referral URL are the same observable. *)
Theorem urls_tell_observables_apart self api v v' :
  (∀ s, percent_decode (urllib.quote s) = s) ∧
  (Observable.filter self v = Observable.filter self v' → v = v') ∧
  (∀ active, Observable.events_url self api v active =
             Observable.events_url self api v' active → v = v') ∧
  (Observable.refer self api v = Observable.refer self api v' → v = v').
Proof.
  split; [apply percent_decode_quote|]. split; [apply filter_inj|]. split.
  - intros active Heq. apply (filter_inj self).
    destruct active; unfold Observable.events_url in Heq;
      by do 3 (apply String.app_inj in Heq).
  - unfold Observable.refer. intros Heq. do 2 (apply String.app_inj in Heq).
    apply (filter_inj self).
    by rewrite <-(percent_decode_quote (Observable.filter self v)), Heq,
      percent_decode_quote.
Qed.

(** ** The sighting and the sub-records of the event *)

Lemma get_through_scalar d outer inner v :
  assoc outer d = Some v → is_scalar v = true →
  get_parts (VDict d) [outer; inner] VNone = Raise TypeError.
Proof. intros Hd Hv. rewrite get_parts_dict, Hd. by destruct v. Qed.

Lemma relations_on_scalar_sub_record d sub v :
  sub ∈ ["file"; "process"; "network"]%string →
  assoc sub d = Some v → is_scalar v = true →
  relations (VDict d) = Raise TypeError.
Proof.
  intros Hsub Hd Hv. unfold relations.
  destruct (mapped_raises_only_TypeError (VDict d) rules) as [->|[out Hout]]; [done|].
  apply mapped_Ok_resolves in Hout. exfalso.
  unfold rules, rule_resolves in Hout. cbn [forallb fst snd] in Hout.
  repeat match goal with
         | H : _ && _ = true |- _ => apply andb_prop in H as [? ?]
         end.
  assert (∀ inner, is_Ok (get_parts (VDict d) [sub; inner] VNone) = false) as Hraise.
  { intros inner. by rewrite (get_through_scalar d sub inner v Hd Hv). }
  rewrite !elem_of_cons, elem_of_nil in Hsub.
  destruct Hsub as [->|[->|[->|[]]]].
  - pose proof (Hraise "fileName") as Hno.
    change (get_parts (VDict d) ["file"; "fileName"] VNone)
      with (get (VDict d) ".file.fileName" VNone) in Hno. congruence.
  - pose proof (Hraise "processName") as Hno.
    change (get_parts (VDict d) ["process"; "processName"] VNone)
      with (get (VDict d) ".process.processName" VNone) in Hno. congruence.
  - pose proof (Hraise "remoteIP") as Hno.
    change (get_parts (VDict d) ["network"; "remoteIP"] VNone)
      with (get (VDict d) ".network.remoteIP" VNone) in Hno. congruence.
Qed.

Section SightingProperties.

Variable uuid4_str : nat → string.

(** X19: the sighting of a result is put together from the other
    extractors: its relations are those of the relation inferencer, its one
    target block holds the targets of the target extractor, the operating
    system read at [.asset.fullOSName] and the same start time as the
    sighting itself, read at [.dateTime], and its description quotes the
    observable as it is. *)
Theorem map_sighting_is_composed self observable event active w r w' :
  Observable.map uuid4_str self observable event active w = (Ok r, w') →
  ∃ s t,
    Mapped.sightings r = [s] ∧ Sighting.targets s = [t] ∧
    relations event = Ok (Sighting.relations s) ∧
    targets event = Ok (Target.observables t) ∧
    get event ".dateTime" VNone = Ok (Sighting.start_time s) ∧
    Target.start_time t = Sighting.start_time s ∧
    get event ".asset.fullOSName" VNone = Ok (Target.os t) ∧
    Sighting.count s = 1 ∧
    Sighting.description s =
      "A Qualys IOC event related to " +:+ Observable.quote +:+ observable +:+
      Observable.quote.
Proof.
  intros (s & kvs & Hs & _ & -> & _)%map_Ok_inv.
  apply sighting_Ok_inv in Hs
    as (_ & external_id & start_time & relations_ & targets_ & os &
        _ & Htime & Hrelations & Htargets & Hos & ->).
  by eexists _, _.
Qed.

(** X20: a [file], [process] or [network] that is [null], a boolean or a
    number, instead of a record or nothing, makes the relation inferencer
    raise [TypeError], and [map] with it, after the one identifier the
    sighting drew. *)
Theorem map_rejects_scalar_sub_record self observable d active w sub v :
  sub ∈ ["file"; "process"; "network"]%string →
  assoc sub d = Some v → is_scalar v = true →
  relations (VDict d) = Raise TypeError ∧
  Observable.map uuid4_str self observable (VDict d) active w =
    (Raise TypeError, after_draws 1 w).
Proof.
  intros Hsub Hd Hv.
  pose proof (relations_on_scalar_sub_record d sub v Hsub Hd Hv) as Hrelations.
  split; [done|].
  unfold Observable.map. apply bind_Raise. unfold Observable.sighting.
  rewrite (bind_Ok _ _ _ _ _ (uuid4_run uuid4_str w)). cbv beta.
  rewrite (get_path _ ".id" ["id"] _ eq_refl), get_parts_dict.
  rewrite (get_path _ ".dateTime" ["dateTime"] _ eq_refl), get_parts_dict.
  assert (∀ key, ∃ x, match assoc key d with
                      | Some x => get_parts x [] VNone
                      | None => Ok VNone
                      end = Ok x) as Hget.
  { intros key. destruct (assoc key d); by eexists. }
  destruct (Hget "id") as [external_id ->].
  destruct (Hget "dateTime") as [start_time ->].
  rewrite !bind_lift. by rewrite Hrelations.
Qed.

End SightingProperties.

(** * The further properties on the sample data *)

(** Witness for X1: the NetBIOS name of the sample event, two dicts deep. *)
Lemma get_follows_nested_dicts_witness :
  get sample_event ".asset.netBiosName" VNone = Ok (VStr "HOST").
Proof.
  apply (proj1 (get_follows_nested_dicts sample_event ["asset"; "netBiosName"] VNone
                  eq_refl)).
  reflexivity.
Defined.

(** Witness for X3: a path written without its leading period. *)
Lemma get_ignores_leading_segment_witness :
  get sample_event "id" VNone = Ok sample_event ∧
  get sample_event "asset.netBiosName" VNone = get sample_event ".netBiosName" VNone.
Proof.
  split.
  - apply (proj1 (get_ignores_leading_segment sample_event "id" "" VNone eq_refl)).
  - apply (proj2 (get_ignores_leading_segment sample_event "asset" "netBiosName" VNone
                    eq_refl)).
Defined.

(** Witness for X4: the sample event, hostname, address, MAC. *)
Lemma targets_in_order_witness :
  targets sample_event =
  Ok [Typed.Make "hostname" (VStr "HOST"); Typed.Make "ip" (VStr "10.0.0.1");
      Typed.Make "mac_address" (VStr "aa:bb")].
Proof.
  apply (targets_in_order _ [("netBiosName", VStr "HOST");
                             ("interfaces", VList [
                                VDict [("ipAddress", VStr "10.0.0.1");
                                       ("macAddress", VStr "aa:bb")]])]
           [[("ipAddress", VStr "10.0.0.1"); ("macAddress", VStr "aa:bb")]]);
    reflexivity.
Defined.

(** Witness for X5: an asset that is [null]. *)
Lemma targets_rejects_non_records_witness :
  targets (VDict [("asset", VNone)]) = Raise AttributeError.
Proof.
  apply (proj1 (targets_rejects_non_records [("asset", VNone)]) VNone); reflexivity.
Defined.

(** Witness for X6: an event that is a string. *)
Lemma map_rejects_non_record_event_witness :
  Observable.map counting_uuid MD5 "abc" (VStr "error") true fresh_world =
  (Raise TypeError, after_draws 1 fresh_world).
Proof.
  apply (map_rejects_non_record_event counting_uuid MD5 "abc" (VStr "error") true
           fresh_world).
  reflexivity.
Defined.

(** Witness for X7: a verdict that is a list, in the second record. *)
Lemma map_rejects_malformed_verdict_witness :
  ∃ n, Observable.map counting_uuid MD5 "abc" list_verdict_event true fresh_world =
       (Raise TypeError, after_draws n fresh_world).
Proof.
  apply (map_rejects_malformed_verdict counting_uuid MD5 "abc" list_verdict_event true
           fresh_world
           [VDict [("verdict", VStr "MALICIOUS")]; VDict [("verdict", VList [VStr "KNOWN"])]]
           (VDict [("verdict", VList [VStr "KNOWN"])]));
    reflexivity.
Defined.

(** Witness for X8: the judgements of the sample event. *)
Lemma map_dispositions_agree_witness :
  ∃ r w',
    Observable.map counting_uuid MD5 "abc" sample_event true fresh_world = (Ok r, w') ∧
    Forall (λ j, (Judgement.disposition j, Judgement.disposition_name j) ∈
                 [(1, "Clean"); (2, "Malicious"); (5, "Unknown")]%string)
           (Mapped.judgements r).
Proof.
  eexists _, _. split; [vm_compute; reflexivity|].
  apply (map_dispositions_agree counting_uuid MD5 "abc" sample_event true fresh_world
           _ _ ltac:(vm_compute; reflexivity)).
Defined.

(** Witness for X9: the documents of the sample event carry its id. *)
Lemma map_documents_share_identity_witness :
  ∃ r w',
    Observable.map counting_uuid MD5 "abc" sample_event true fresh_world = (Ok r, w') ∧
    Forall (λ j, Judgement.external_ids j = [VStr "e-1"]) (Mapped.judgements r).
Proof.
  eexists _, _. split; [vm_compute; reflexivity|].
  destruct (map_documents_share_identity counting_uuid MD5 "abc" sample_event true
              fresh_world _ _ ltac:(vm_compute; reflexivity))
    as (external_id & Hid & _ & Hjudgements & _).
  injection Hid as <-.
  eapply Forall_impl; [exact Hjudgements|]. by intros j [Hj _].
Defined.

(** Witness for X10: the sample event in the inactive phase. *)
Lemma map_flag_only_tags_sighting_witness :
  ∃ r w',
    Observable.map counting_uuid MD5 "abc" sample_event true fresh_world = (Ok r, w') ∧
    Observable.map counting_uuid MD5 "abc" sample_event false fresh_world =
      (Ok (retagged false r), w').
Proof.
  eexists _, _. split; [vm_compute; reflexivity|].
  apply (map_flag_only_tags_sighting counting_uuid MD5 "abc" sample_event true false
           fresh_world _ _ ltac:(vm_compute; reflexivity)).
Defined.

(** Witness for X11: an event without asset after a well-shaped one. *)
Lemma observe_aborts_on_rejected_event_witness :
  ∃ w',
    Observable.observe counting_uuid rejected_event_transport MD5
                       "https://qualys.example" "abc" fresh_world =
      (Raise (KeyError "asset"), w') ∧
    length (sent w') = 1%nat.
Proof.
  destruct (proj1 (observe_aborts_on_rejected_event counting_uuid rejected_event_transport
                     MD5 "https://qualys.example" "abc" fresh_world)
              _ _ _ _ _
              ltac:(vm_compute; reflexivity) ltac:(vm_compute; reflexivity)
              ltac:(vm_compute; reflexivity))
    as [Hobserve Hsent].
  eexists. split; [exact Hobserve|]. rewrite Hsent. reflexivity.
Defined.

(** Witness for X12: one event in each phase, two sightings. *)
Lemma observe_counts_witness :
  ∃ observed w',
    Observable.observe counting_uuid two_phase_transport MD5 "https://qualys.example" "abc"
                       fresh_world = (Ok observed, w') ∧
    length (docs_at observed "indicators") = 2%nat.
Proof.
  destruct (observe_counts counting_uuid two_phase_transport MD5
              "https://qualys.example" "abc" fresh_world
              _ _ _ _ _ _ _ _ _ _
              ltac:(vm_compute; reflexivity) ltac:(vm_compute; reflexivity)
              ltac:(vm_compute; reflexivity) ltac:(vm_compute; reflexivity)
              ltac:(vm_compute; reflexivity) ltac:(vm_compute; reflexivity))
    as (observed & Hobserve & _ & Hindicators & _).
  eexists observed, _. split; [exact Hobserve|]. exact Hindicators.
Defined.

(** Witness for X13: one event in each phase, twelve documents. *)
Lemma observe_identifiers_witness :
  ∃ observed w',
    Observable.observe counting_uuid two_phase_transport MD5 "https://qualys.example" "abc"
                       fresh_world = (Ok observed, w') ∧
    drawn w' = (0 + length (all_docs observed))%nat.
Proof.
  destruct (observe_identifiers counting_uuid two_phase_transport MD5
              "https://qualys.example" "abc" fresh_world
              _ _ _ _ _ _ _ _ _ _
              ltac:(vm_compute; reflexivity) ltac:(vm_compute; reflexivity)
              ltac:(vm_compute; reflexivity) ltac:(vm_compute; reflexivity)
              ltac:(vm_compute; reflexivity) ltac:(vm_compute; reflexivity))
    as (observed & Hobserve & Hdrawn & _).
  eexists observed, _. split; [exact Hobserve|]. exact Hdrawn.
Defined.

(** Witness for X14: an error object delivered with status 200. *)
Lemma observe_rejects_body_that_is_no_list_witness :
  ∃ w',
    Observable.observe counting_uuid error_object_transport MD5 "https://qualys.example"
                       "abc" fresh_world = (Raise TypeError, w').
Proof.
  eexists.
  apply (observe_rejects_body_that_is_no_list counting_uuid error_object_transport MD5
           "https://qualys.example" "abc" fresh_world
           (VDict [("error", VStr "rate limit")]) _ ltac:(vm_compute; reflexivity)).
Defined.

(** Witness for X15: the run with an expired token, three requests. *)
Lemma observe_sends_its_phases_only_witness :
  ∃ o w',
    Observable.observe counting_uuid expired_token_transport MD5 "https://qualys.example"
                       "abc" fresh_world = (o, w') ∧
    (length (sent fresh_world) < length (sent w') ≤ length (sent fresh_world) + 4)%nat.
Proof.
  eexists _, _. split; [vm_compute; reflexivity|].
  destruct (observe_sends_its_phases_only counting_uuid expired_token_transport MD5
              "https://qualys.example" "abc" fresh_world _ _
              ltac:(vm_compute; reflexivity))
    as (retried1 & rest & _ & _ & Hbound).
  exact Hbound.
Defined.

(** Witness for X19: the sighting of the sample event. *)
Lemma map_sighting_is_composed_witness :
  ∃ r w' s,
    Observable.map counting_uuid MD5 "abc" sample_event true fresh_world = (Ok r, w') ∧
    Mapped.sightings r = [s] ∧ relations sample_event = Ok (Sighting.relations s).
Proof.
  destruct (map_sighting_is_composed counting_uuid MD5 "abc" sample_event true fresh_world
              _ _ ltac:(vm_compute; reflexivity))
    as (s & t & Hsightings & _ & Hrelations & _).
  eexists _, _, s. split; [vm_compute; reflexivity|]. split; [exact Hsightings|].
  exact Hrelations.
Defined.

(** Witness for X20: an event whose file is [null]. *)
Lemma map_rejects_scalar_sub_record_witness :
  Observable.map counting_uuid MD5 "abc"
                 (VDict [("file", VNone); ("asset", VDict [])]) true fresh_world =
  (Raise TypeError, after_draws 1 fresh_world).
Proof.
  apply (map_rejects_scalar_sub_record counting_uuid MD5 "abc"
           [("file", VNone); ("asset", VDict [])] true fresh_world "file" VNone).
  - by left.
  - reflexivity.
  - reflexivity.
Defined.
